(** * randomcarbon: orchestration code of the analysis and symmetry utilities

    A shallow embedding of

      - [randomcarbon/evolution/conditions/energy.py]  (Module [Energy]),
      - [randomcarbon/analysis/generation.py]          (Module [Generation]),
      - [randomcarbon/utils/symmetry.py]               (Module [Symmetry]),

    followed by the properties proved about them.

    Python floats are idealised as rationals ([Q]); the only float
    arithmetic in the three files is a scaling by powers of two and
    comparisons.  Python exceptions are values of [exn]; code that calls
    collaborators with internal state (a random structure generator, a
    logger, the file system) is written in the state-and-exception monad
    [M].  The calls into collaborators that the statements speak about
    (the logger, the file writer, the symmetry toolkit, the energy
    calculator) are recorded in a trace carried by the state, so that
    "was not called" and "was called with this argument" are statements
    about that trace. *)

From Stdlib Require Import ZArith QArith Qpower String List DecimalString Lia.
From stdpp Require Import base option list gmap strings.

Open Scope Z_scope.
Open Scope string_scope.
Open Scope list_scope.

(** ** Exceptions and the monad *)

Inductive exn : Type :=
| ValueError (msg : string)
| RuntimeError (msg : string)
| AssertionError
| IndexError (msg : string)
| RecursionError
| Exception_ (name : string).   (* anything else a collaborator raises *)

Inductive res (A : Type) : Type :=
| Ok (a : A)
| Raise (e : exn).
Arguments Ok {A} a.
Arguments Raise {A} e.

Definition is_ValueError (e : exn) : bool :=
  match e with ValueError _ => true | _ => false end.

Definition M (S A : Type) : Type := S -> res A * S.

Definition ret {S A} (a : A) : M S A := fun s => (Ok a, s).
Definition raise {S A} (e : exn) : M S A := fun s => (Raise e, s).
Definition bind {S A B} (m : M S A) (k : A -> M S B) : M S B :=
  fun s => match m s with
           | (Ok a, s') => k a s'
           | (Raise e, s') => (Raise e, s')
           end.
Definition lift_res {S A} (r : res A) : M S A := fun s => (r, s).
Definition get_state {S} : M S S := fun s => (Ok s, s).
Definition modify {S} (f : S -> S) : M S unit := fun s => (Ok tt, f s).

(** [try: m except h]: the handler sees the exception and the state the
    body left behind (effects of a failed body are not rolled back). *)
Definition try_except {S A} (m : M S A) (h : exn -> M S A) : M S A :=
  fun s => match m s with
           | (Ok a, s') => (Ok a, s')
           | (Raise e, s') => h e s'
           end.

Declare Scope py_scope.
Delimit Scope py_scope with py.
Notation "x <- m ;; k" := (bind m (fun x => k))
  (at level 100, m at level 99, right associativity) : py_scope.
Notation "m ;;; k" := (bind m (fun _ => k))
  (at level 100, right associativity) : py_scope.

(** ** Numbers and text *)

(** [x > y] on floats. *)
Definition Qgtb (x y : Q) : bool := negb (Qle_bool x y).

(** [x == 0.0]. *)
Definition Qis_zero (x : Q) : bool := Qeq_bool x 0.

(** [str(n)] for an [int]. *)
Definition str_int (n : Z) : string := NilZero.string_of_int (Z.to_int n).

(** ** Structures *)

Definition vec3 : Type := Q * Q * Q.

Record Lattice : Type := { matrix : vec3 * vec3 * vec3 }.

(** A pymatgen [Structure], as far as the three files look into it:
    the lattice, the species and fractional coordinates of the sites
    (in site order) and the [properties] dictionary. *)
Record Structure : Type := {
  lattice : Lattice;
  species : list string;
  frac_coords : list vec3;
  properties : gmap string Q
}.

(** [len(structure)] *)
Definition len (s : Structure) : Z := Z.of_nat (length (frac_coords s)).

Definition set_property (name : string) (v : Q) (s : Structure) : Structure :=
  {| lattice := lattice s; species := species s;
     frac_coords := frac_coords s;
     properties := <[name := v]> (properties s) |}.

(** * Definitions *)

(** ** [evolution/conditions/energy.py] *)

Module Energy.

(** The injected calculator ([Factory]) together with the ASE run
    behind [randomcarbon.run.ase.get_energy]: the energy of a structure
    under optional constraints, or an exception. *)
Record Calculator : Type := {
  calculate : Structure -> option (list string) -> res Q
}.

(** The structure handed to [satisfied] is a mutable Python object; the
    state holds it, and the list of structures the calculator was run
    on. *)
Record world : Type := {
  target : Structure;
  calls : list Structure
}.

(** Modelled from the spec: [randomcarbon.utils.structure.get_property]
    is not among the sources; "read a cached energy property from the
    structure if present" ([None] when absent). *)
Definition get_property (name : string) : M world (option Q) :=
  fun w => (Ok (properties (target w) !! name), w).

(** Modelled from the spec: [randomcarbon.run.ase.get_energy] is not
    among the sources; it "returns a scalar energy value, optionally
    caching it onto the structure". *)
Definition get_energy (calculator : Calculator)
    (constraints : option (list string)) (set_in_structure : bool)
    : M world Q :=
  fun w =>
    let s := target w in
    match calculate calculator s constraints with
    | Ok e =>
        (Ok e,
         {| target := if set_in_structure then set_property "energy" e s else s;
            calls := calls w ++ [s] |})
    | Raise x => (Raise x, {| target := s; calls := calls w ++ [s] |})
    end.

(** [SmallEnergyAtoms.__init__]; [cls_name] is [self.__class__.__name__]
    (["SmallEnergyAtoms"] unless subclassed). *)
Record SmallEnergyAtoms : Type := {
  criteria : gmap Z Q;
  calculator : Calculator;
  constraints : option (list string);
  cls_name : string
}.

Section Satisfied.
(** [str] of a float inside an f-string *)
Variable float_repr : Q -> string.

(** The [for ... in self.criteria.items()] loop with its early
    [return]; [None] when the loop runs to its end. *)
Fixpoint scan (cls : string) (nsites : Z) (e : Q) (items : list (Z * Q))
    : option (bool * string) :=
  match items with
  | [] => None
  | (n_threshold, e_threshold) :: rest =>
      if (nsites >? n_threshold) && Qgtb e e_threshold
      then Some (true, cls +:+ ". nsites: " +:+ str_int nsites
                           +:+ ", energy: " +:+ float_repr e)
      else scan cls nsites e rest
  end.

(** [SmallEnergyAtoms.satisfied].  [if not e] holds for [None] and for
    a float equal to zero.  The dictionary is walked in the order of
    [map_to_list]; the value returned does not name the entry that
    matched. *)
Definition satisfied (self : SmallEnergyAtoms) : M world (bool * string) :=
  (e0 <- get_property "energy";;
   e <- match e0 with
        | Some q =>
            if Qis_zero q
            then get_energy (calculator self) (constraints self) true
            else ret q
        | None => get_energy (calculator self) (constraints self) true
        end;;
   w <- get_state;;
   let nsites := len (target w) in
   match scan (cls_name self) nsites e (map_to_list (criteria self)) with
   | Some r => ret r
   | None => ret (false, cls_name self +:+ ". no condition satisfied")
   end)%py.
End Satisfied.

End Energy.

(** ** [analysis/generation.py] *)

Module Generation.

(** A volumetric grid and the [Chgcar] built from a structure and named
    grids. *)
Definition Grid : Type := list (list (list Q)).

Record Chgcar : Type := {
  poscar : Structure;
  data : list (string * Grid)
}.

Inductive level : Type := WARNING | INFO.

(** What leaves the function: calls of the module logger (message and
    extra arguments) and calls of [Chgcar.write_file]. *)
Inductive event : Type :=
| Log (lv : level) (msg : string) (args : list string)
| WriteFile (c : Chgcar) (path : option string).

(** The collaborators: the [Evolver] with its internal state [E], the
    probability density estimator, the file system [FS] behind
    [write_file], the text of a traceback and of a profiler report.
    The estimator is an optional import guarded by [requires(...)]; an
    [Env] stands for an environment in which the import succeeded.  The
    progress bar of [tqdm] does not take part. *)
Record Env : Type := {
  E : Type;
  FS : Type;
  evolve : option Structure -> M E (list Structure);
  probability_density :
    Structure -> list (list vec3) -> list string -> Q -> res Grid;
  write_file : Chgcar -> option string -> M FS unit;
  format_exc : exn -> string;
  print_stats : string
}.

Record world (env : Env) : Type := {
  evolver_state : E env;
  files : FS env;
  events : list event
}.
Arguments evolver_state {env} w.
Arguments files {env} w.
Arguments events {env} w.

Section Run.
Variable env : Env.
Local Abbreviation W := (world env).

Definition emit (ev : event) : M W unit :=
  modify (fun w => {| evolver_state := evolver_state w;
                      files := files w;
                      events := events w ++ [ev] |}).

Definition logger_warning (msg : string) (args : list string) : M W unit :=
  emit (Log WARNING msg args).

Definition logger_info (msg : string) : M W unit :=
  emit (Log INFO msg []).

(** [evolver.evolve(current)]; [None] and the empty list are both
    the empty list here (the code only tests [not new_s]). *)
Definition call_evolve (current : option Structure) : M W (list Structure) :=
  fun w =>
    let '(r, e') := evolve env current (evolver_state w) in
    (r, {| evolver_state := e'; files := files w; events := events w |}).

(** [chgcar.write_file(filepath)] *)
Definition call_write_file (c : Chgcar) (path : option string) : M W unit :=
  (emit (WriteFile c path);;;
   fun w =>
     let '(r, fs') := write_file env c path (files w) in
     (r, {| evolver_state := evolver_state w; files := fs';
            events := events w |}))%py.

(** [fcoords.extend(s.frac_coords[k:])] for each [s] in [new_s] *)
Definition extend_all (k : nat) (fcoords : list vec3) (new_s : list Structure)
    : list vec3 :=
  fold_left (fun acc s => acc ++ drop k (frac_coords s)) new_s fcoords.

(** One pass through the body of the [for] loop, lines 60-75. *)
Definition attempt (current : option Structure) (i : Z)
    (fcoords : list vec3) : M W (list vec3) :=
  try_except
    (new_s <- call_evolve current;;
     match new_s with
     | [] =>
         logger_warning
           ("at iteration " +:+ str_int i +:+ " no structure was generated") [];;;
         ret fcoords
     | _ :: _ =>
         match current with
         | Some cur => ret (extend_all (length (frac_coords cur)) fcoords new_s)
         | None => ret (extend_all 0 fcoords new_s)
         end
     end)%py
    (fun e =>
       (logger_warning ("error " +:+ str_int i +:+ ": ") [format_exc env e];;;
        ret fcoords)%py).

(** [for i in tqdm.tqdm(range(n_generated))], lines 57-75. *)
Fixpoint generate (current : option Structure) (idxs : list Z)
    (fcoords : list vec3) : M W (list vec3) :=
  match idxs with
  | [] => ret fcoords
  | i :: rest =>
      (fc <- attempt current i fcoords;; generate current rest fc)%py
  end.

(** [range(n)] *)
Definition range (n : Z) : list Z := map Z.of_nat (seq 0 (Z.to_nat n)).

(** [distribution_density]; [filepath] defaults to [Some "CHGCAR"]. *)
Definition distribution_density (template : Structure)
    (current : option Structure) (n_generated : Z) (interval : Q)
    (filepath : option string) (profile : bool) : M W Chgcar :=
  (fcoords <- generate current (range n_generated) [];;
   (if profile then logger_info (print_stats env) else ret tt);;;
   (* np.reshape(fcoords, (len(fcoords), 1, 3)) *)
   let fcoords := map (fun v => [v]) fcoords in
   match fcoords with
   | [] => raise (IndexError "index 0 is out of bounds for axis 0 with size 0")
   | first :: _ =>
       let tmp_s := {| lattice := lattice template; species := ["C"];
                       frac_coords := first; properties := ∅ |} in
       Pr <- lift_res (probability_density env tmp_s fcoords ["C"] interval);;
       let s_init := match current with Some c => c | None => template end in
       let chgcar := {| poscar := s_init; data := [("total", Pr)] |} in
       call_write_file chgcar filepath;;;
       ret chgcar
   end)%py.
End Run.

End Generation.

(** ** [utils/symmetry.py] *)

Module Symmetry.

Record SymmOp : Type := {
  rotation : vec3 * vec3 * vec3;
  translation : vec3
}.

(** The symmetry toolkit (pyxtal, pymatgen's [SpacegroupAnalyzer] and
    [StructureMatcher]) and the repository's
    [add_new_symmetrized_atom], which is not among the sources and is
    taken as a collaborator.  [R] is the state of the random generator
    that [subgroup] and [add_new_symmetrized_atom] draw from.

    The module imports pyxtal optionally and guards
    [get_subgroup_structure] and [get_subgroups] with
    [requires(pyxtal, ...)]; a [Toolkit] value stands for an
    environment in which the import succeeded, where the guard is the
    identity. *)
Record Toolkit : Type := {
  R : Type;
  Pyxtal : Type;
  Spga : Type;
  Group : Type;
  (* c = pyxtal.pyxtal(); c.from_seed(structure, tol, a_tol) *)
  from_seed : Structure -> Q -> Q -> res Pyxtal;
  (* c.group.number *)
  group_number : Pyxtal -> Z;
  (* c.subgroup(H, idx, eps, group_type) *)
  subgroup :
    Pyxtal -> option Z -> option (list Z) -> Q -> string -> M R (list Pyxtal);
  to_pymatgen : Pyxtal -> Structure;
  (* SpacegroupAnalyzer(structure, symprec) *)
  SpacegroupAnalyzer : Structure -> Q -> res Spga;
  get_space_group_number : Spga -> res (option Z);
  get_primitive_standard_structure : Spga -> res Structure;
  get_symmetry_operations : Spga -> res (list SymmOp);
  (* StructureMatcher(ltol, angle_tol, stol, primitive_cell=True).fit(a, b) *)
  fit : Q -> Q -> Q -> Structure -> Structure -> res bool;
  add_new_symmetrized_atom : Structure -> list SymmOp -> M R Structure;
  (* pyxtal.symmetry.Group(spgn) *)
  symmetry_Group : Z -> res Group;
  (* group.get_max_t_subgroup()["subgroup"] *)
  max_t_subgroup : Group -> list Z;
  (* group.get_max_k_subgroup()["subgroup"] *)
  max_k_subgroup : Group -> list Z
}.

(** Every call into the toolkit, in the order it is made. *)
Inductive event : Type :=
| CallFromSeed (s : Structure) (tol a_tol : Q)
| CallSubgroup (H : option Z) (idx : option (list Z)) (eps : Q)
    (group_type : string)
| CallAnalyzer (s : Structure) (symprec : Q)
| CallSpaceGroupNumber (r : res (option Z))
| CallPrimitive
| CallSymmetryOperations
| CallFit (a b : Structure)
| CallNewAtom (template : Structure).

Record world (tk : Toolkit) : Type := {
  rng : R tk;
  trace : list event
}.
Arguments rng {tk} w.
Arguments trace {tk} w.

(** The value of [get_subgroups]: a list, or a dictionary of
    dictionaries. *)
#[warnings="-register-all"] Inductive pyval : Type :=
| PyList (l : list Z)
| PyDict (d : gmap Z pyval).

(** What one pass of the tolerance loop leaves: [break] with the
    primitive structure and its analyzer, or the next pass with the
    current [sub_struct]. *)
Inductive flow (tk : Toolkit) : Type :=
| Break (sub_struct : Structure) (spga : Spga tk)
| Continue (sub_struct : Structure).
Arguments Break {tk} sub_struct spga.
Arguments Continue {tk} sub_struct.

Section Run.
Variable tk : Toolkit.
Local Abbreviation W := (world tk).

Definition emit (ev : event) : M W unit :=
  modify (fun w => {| rng := rng w; trace := trace w ++ [ev] |}).

(** A deterministic toolkit call: record it, then its result. *)
Definition call {A} (ev : event) (r : res A) : M W A :=
  (emit ev;;; lift_res r)%py.

(** A toolkit call that draws random numbers. *)
Definition call_random {A} (ev : event) (m : M (R tk) A) : M W A :=
  (emit ev;;;
   fun w => let '(r, g') := m (rng w) in
            (r, {| rng := g'; trace := trace w |}))%py.

Definition analyzer (s : Structure) (symprec : Q) : M W (Spga tk) :=
  call (CallAnalyzer s symprec) (SpacegroupAnalyzer tk s symprec).

Definition space_group_number (spga : Spga tk) : M W (option Z) :=
  let r := get_space_group_number tk spga in
  call (CallSpaceGroupNumber r) r.

(** [x == spgn] for an optional number [x] ([None == n] is [False]) *)
Definition eq_spgn (x : option Z) (spgn : Z) : bool :=
  match x with Some n => (n =? spgn)%Z | None => false end.

(** [try: m except ValueError: h] *)
Definition except_ValueError {A} (m h : M W A) : M W A :=
  try_except m (fun e => if is_ValueError e then h else raise e).

(** [eps * 2**i / 16] *)
Definition symprec_of (eps : Q) (i : Z) : Q :=
  eps * inject_Z (2 ^ i) / 16.

(** Lines 70-81: one pass of the loop over [i].  An exception other
    than [ValueError] leaves the function; a [ValueError] raised after
    [sub_struct] has been replaced leaves the replacement in place. *)
Definition primitive_pass (eps : Q) (spgn : Z) (i : Z)
    (sub_struct : Structure) : M W (flow tk) :=
  (let symprec_sub := symprec_of eps i in
   spga <- analyzer sub_struct symprec_sub;;
   except_ValueError
     (tmp_spgn <- space_group_number spga;;
      if eq_spgn tmp_spgn spgn then
        sub_struct' <- call CallPrimitive
                         (get_primitive_standard_structure tk spga);;
        except_ValueError
          (spga' <- analyzer sub_struct' symprec_sub;;
           n <- space_group_number spga';;
           if eq_spgn n spgn then ret (Break sub_struct' spga')
           else raise AssertionError)
          (ret (Continue sub_struct'))
      else ret (Continue sub_struct))
     (ret (Continue sub_struct)))%py.

(** Lines 69-83: [for i in range(1, 9): ... else: raise RuntimeError] *)
Fixpoint primitive_scan (eps : Q) (spgn : Z) (idxs : list Z)
    (sub_struct : Structure) : M W (Structure * Spga tk) :=
  match idxs with
  | [] => raise (RuntimeError
      "Could not find a value of symprec that matches the original space group")
  | i :: rest =>
      (f <- primitive_pass eps spgn i sub_struct;;
       match f with
       | Break s spga => ret (s, spga)
       | Continue s => primitive_scan eps spgn rest s
       end)%py
  end.

(** [range(1, 9)] *)
Definition range_1_9 : list Z := [1; 2; 3; 4; 5; 6; 7; 8].

Definition get_subgroup_structure (structure : Structure)
    (spgn : option Z) (idx : option Z) (eps : Q) (group_type : string)
    (primitive : bool) (symprec angle_tolerance : Q)
    (expected_initial_spgn : option Z)
    : M W (Structure * list SymmOp) :=
  (if primitive && Qis_zero eps then
     raise (ValueError
       "to determine the primitive structure eps should be greater than 0")
   else
   let idx := option_map (fun i => [i]) idx in
   c <- call (CallFromSeed structure symprec angle_tolerance)
          (from_seed tk structure symprec angle_tolerance);;
   if match expected_initial_spgn with
      | Some n => negb (group_number tk c =? n)%Z
      | None => false
      end
   then raise (RuntimeError
          ("pyxtal identified the space group " +:+ str_int (group_number tk c)
           +:+ ". Try to tune the value of symprec."))
   else
   subs <- call_random (CallSubgroup spgn idx eps group_type)
             (subgroup tk c spgn idx eps group_type);;
   match subs with
   | [] => raise (IndexError "list index out of range")
   | c_sub :: _ =>
       let sub_struct := to_pymatgen tk c_sub in
       let spgn := match spgn with
                   | None => group_number tk c_sub
                   | Some n => n
                   end in
       r <- (if primitive then primitive_scan eps spgn range_1_9 sub_struct
             else (spga <- analyzer sub_struct symprec;;
                   ret (sub_struct, spga)));;
       let '(sub_struct, spga) := r in
       sym_ops <- call CallSymmetryOperations
                    (get_symmetry_operations tk spga);;
       ret (sub_struct, sym_ops)
   end)%py.

(** Lines 119-125: [for i in range(10): ... break ... else: return msg];
    [true] stands for the [break]. *)
Fixpoint sample_loop (structure_sub : Structure) (symm_ops : list SymmOp)
    (sub_spgn : Z) (symprec : Q) (idxs : list Z) : M W bool :=
  match idxs with
  | [] => ret false
  | _ :: rest =>
      (s <- call_random (CallNewAtom structure_sub)
             (add_new_symmetrized_atom tk structure_sub symm_ops);;
       spga <- analyzer s symprec;;
       n <- space_group_number spga;;
       if eq_spgn n sub_spgn then ret true
       else sample_loop structure_sub symm_ops sub_spgn symprec rest)%py
  end.

Definition range (n : Z) : list Z := map Z.of_nat (seq 0 (Z.to_nat n)).

Definition validate_subgroup (structure_orig structure_sub : Structure)
    (symm_ops : list SymmOp) (sub_spgn : Z)
    (ltol stol angle_tol symprec : Q) : M W (option string) :=
  (ok <- call (CallFit structure_orig structure_sub)
           (fit tk ltol angle_tol stol structure_orig structure_sub);;
   if negb ok then ret (Some "structures do not fit")
   else
   found <- sample_loop structure_sub symm_ops sub_spgn symprec (range 10);;
   if found then ret None
   else ret (Some ("generated structures do not belong to the spacegroup "
                   +:+ str_int sub_spgn)))%py.

(** [group_type] selects the table; anything but "t" and "k" raises. *)
Definition subgroups_of (group : Group tk) (group_type : string)
    : res (list Z) :=
  if String.eqb group_type "t" then Ok (max_t_subgroup tk group)
  else if String.eqb group_type "k" then Ok (max_k_subgroup tk group)
  else Raise (ValueError "group_type should be either 't' or 'k'").

(** Lines 155-159: one pass of [for sg in subgroups], given the
    recursive call [rec]. *)
Definition add_subgroup (rec : Z -> res pyval)
    (acc : res (gmap Z pyval)) (sg : Z) : res (gmap Z pyval) :=
  match acc with
  | Raise e => Raise e
  | Ok subgroups_dict =>
      match subgroups_dict !! sg with
      | Some _ => Ok subgroups_dict
      | None =>
          match rec sg with
          | Ok v => Ok (<[sg := v]> subgroups_dict)
          | Raise e => Raise e
          end
      end
  end.

(** [get_subgroups].  [fuel] is the depth the interpreter's call stack
    still allows; running out of it is Python's [RecursionError]. *)
Fixpoint get_subgroups (fuel : nat) (spgn : Z) (recursive : bool)
    (group_type : string) : res pyval :=
  match fuel with
  | O => Raise RecursionError
  | S fuel' =>
      match symmetry_Group tk spgn with
      | Raise e => Raise e
      | Ok group =>
          match subgroups_of group group_type with
          | Raise e => Raise e
          | Ok subgroups =>
              if recursive then
                match fold_left
                        (add_subgroup
                           (fun sg => get_subgroups fuel' sg true group_type))
                        subgroups (Ok ∅) with
                | Ok subgroups_dict => Ok (PyDict subgroups_dict)
                | Raise e => Raise e
                end
              else Ok (PyList subgroups)
          end
      end
  end.
End Run.

End Symmetry.

(** * Concrete inputs

    Small structures, collaborators and tables on which the definitions
    above are run. *)

Module Demo.

Definition unit_lattice : Lattice :=
  {| matrix := ((1, 0, 0), (0, 1, 0), (0, 0, 1))%Q |}.

(** [n] carbon atoms at the origin, with or without a cached energy. *)
Definition atoms (n : nat) (energy : option Q) : Structure :=
  {| lattice := unit_lattice;
     species := replicate n "C";
     frac_coords := replicate n (0, 0, 0)%Q;
     properties := match energy with
                   | Some e => {[ "energy" := e ]}
                   | None => ∅
                   end |}.

(** The table of the class docstring: [{100: -1.5, 200: -2}]. *)
Definition example_criteria : gmap Z Q :=
  <[ 100 := (-1.5)%Q ]> (<[ 200 := (-2)%Q ]> ∅).

(** A calculator that always answers [e]. *)
Definition constant_calculator (e : Q) : Energy.Calculator :=
  {| Energy.calculate := fun _ _ => Ok e |}.

Definition condition (calc : Energy.Calculator) : Energy.SmallEnergyAtoms :=
  {| Energy.criteria := example_criteria;
     Energy.calculator := calc;
     Energy.constraints := None;
     Energy.cls_name := "SmallEnergyAtoms" |}.

Definition fresh (s : Structure) : Energy.world :=
  {| Energy.target := s; Energy.calls := [] |}.

(** An evolver that follows a plan: at its [n]-th call it adds one atom
    (plan 0), raises (plan 1) or returns nothing (any other plan).  The
    writer appends to a list of files and, like [open], rejects a
    missing path. *)
Definition one_more (current : option Structure) (n : nat) : Structure :=
  let base := match current with Some c => c | None => atoms 0 None end in
  {| lattice := lattice base;
     species := species base ++ ["C"];
     frac_coords := frac_coords base ++ [(inject_Z (Z.of_nat n) / 10, 0, 0)%Q];
     properties := ∅ |}.

Definition planned (plan : nat -> nat) : Generation.Env :=
  {| Generation.E := nat;
     Generation.FS := list (string * Generation.Chgcar);
     Generation.evolve := fun current n =>
       (match plan n with
        | O => Ok [one_more current n]
        | S O => Raise (Exception_ "RuntimeError")
        | _ => Ok []
        end, S n);
     Generation.probability_density := fun _ traj _ _ =>
       Ok [[[inject_Z (Z.of_nat (length traj))]]];
     Generation.write_file := fun c path fs =>
       match path with
       | Some name => (Ok tt, fs ++ [(name, c)])
       | None => (Raise (Exception_ "TypeError"), fs)
       end;
     Generation.format_exc := fun _ => "Traceback (most recent call last)";
     Generation.print_stats := "" |}.

(** Second call raises, third returns nothing, the others add an atom. *)
Definition mixed_plan (n : nat) : nat :=
  match n with 1%nat => 1%nat | 2%nat => 2%nat | _ => 0%nat end.

Definition start (plan : nat -> nat) : Generation.world (planned plan) :=
  Generation.Build_world (planned plan) 0%nat [] [].

(** A toolkit over structures tagged with a space-group number.
    [detect] is what the analyzer reports for a structure at a
    tolerance; [table_t] and [table_k] are the maximal-subgroup tables.
    The derived subgroup carries the requested number (166 when none is
    requested); the primitive reduction is the identity. *)
Definition identity_op : Symmetry.SymmOp :=
  {| Symmetry.rotation := ((1, 0, 0), (0, 1, 0), (0, 0, 1))%Q;
     Symmetry.translation := (0, 0, 0)%Q |}.

Definition toolkit (detect : Structure -> Q -> res (option Z))
    (table_t table_k : Z -> list Z) : Symmetry.Toolkit :=
  {| Symmetry.R := nat;
     Symmetry.Pyxtal := Structure * Z;
     Symmetry.Spga := Structure * Q;
     Symmetry.Group := Z;
     Symmetry.from_seed := fun s _ _ => Ok (s, 227%Z);
     Symmetry.group_number := snd;
     Symmetry.subgroup := fun c H _ _ _ n =>
       (Ok [(c.1, match H with Some h => h | None => 166%Z end)], S n);
     Symmetry.to_pymatgen := fst;
     Symmetry.SpacegroupAnalyzer := fun s symprec => Ok (s, symprec);
     Symmetry.get_space_group_number := fun a => detect a.1 a.2;
     Symmetry.get_primitive_standard_structure := fun a => Ok a.1;
     Symmetry.get_symmetry_operations := fun _ => Ok [identity_op];
     Symmetry.fit := fun _ _ _ a b =>
       Ok (Nat.eqb (length (frac_coords a)) (length (frac_coords b)));
     Symmetry.add_new_symmetrized_atom := fun s _ n =>
       (Ok (one_more (Some s) n), S n);
     Symmetry.symmetry_Group := fun g =>
       if ((1 <=? g) && (g <=? 230))%Z then Ok g
       else Raise (ValueError "unknown space group");
     Symmetry.max_t_subgroup := table_t;
     Symmetry.max_k_subgroup := table_k |}.

(** An analyzer that sees group 1 in everything. *)
Definition sees_P1 (s : Structure) (symprec : Q) : res (option Z) :=
  Ok (Some 1%Z).

(** A table that descends: 3 -> 2, 2, 1; 2 -> 1; nothing below. *)
Definition descending (g : Z) : list Z :=
  match g with
  | 3%Z => [2; 2; 1]%Z
  | 2%Z => [1]%Z
  | _ => []
  end.

(** A table in which group 1 lists itself among its subgroups. *)
Definition self_listing (g : Z) : list Z :=
  match g with
  | 1%Z => [1]%Z
  | _ => []
  end.

Definition blind : Symmetry.Toolkit := toolkit sees_P1 descending descending.
Definition looping : Symmetry.Toolkit := toolkit sees_P1 descending self_listing.

Definition seed (tk : Symmetry.Toolkit) (g : Symmetry.R tk) : Symmetry.world tk :=
  Symmetry.Build_world tk g [].

End Demo.

(** * Vocabulary of the statements *)

Module GenerationTrace.
Import Generation.

Section Outcomes.
Variable env : Env.

(** What the evolver answers to [n] successive calls from state [e]. *)
Fixpoint replay (current : option Structure) (n : nat) (e : E env)
    : list (res (list Structure)) :=
  match n with
  | O => []
  | S k => let '(r, e') := evolve env current e in r :: replay current k e'
  end.

(** The state of the evolver after these calls. *)
Fixpoint after (current : option Structure) (n : nat) (e : E env) : E env :=
  match n with
  | O => e
  | S k => after current k (evolve env current e).2
  end.

(** A failed attempt: an exception, or no structure. *)
Definition failed (r : res (list Structure)) : bool :=
  match r with
  | Ok (_ :: _) => false
  | _ => true
  end.

(** The length of the known prefix. *)
Definition prefix (current : option Structure) : nat :=
  match current with
  | Some cur => length (frac_coords cur)
  | None => 0
  end.

(** The coordinates an answer contributes: those beyond the prefix. *)
Definition new_coords (current : option Structure)
    (r : res (list Structure)) : list vec3 :=
  match r with
  | Ok new_s => flat_map (fun s => drop (prefix current) (frac_coords s)) new_s
  | Raise _ => []
  end.

(** The log records attempt [i] leaves. *)
Definition warnings (i : Z) (r : res (list Structure)) : list event :=
  match r with
  | Raise e => [Log WARNING ("error " +:+ str_int i +:+ ": ") [format_exc env e]]
  | Ok [] => [Log WARNING ("at iteration " +:+ str_int i
                            +:+ " no structure was generated") []]
  | Ok (_ :: _) => []
  end.

Definition is_write (ev : event) : bool :=
  match ev with WriteFile _ _ => true | Log _ _ _ => false end.
End Outcomes.

End GenerationTrace.

Module SymmetryTrace.
Import Symmetry.

(** The tolerances handed to [SpacegroupAnalyzer], in order. *)
Definition tolerances (tr : list event) : list Q :=
  flat_map (fun ev => match ev with
                      | CallAnalyzer _ symprec => [symprec]
                      | _ => []
                      end) tr.

(** Each element is [q] times the one before it. *)
Definition ratio (q : Q) (l : list Q) : Prop :=
  forall (i : nat) (a b : Q),
    l !! i = Some a -> l !! S i = Some b -> (b == q * a)%Q.

(** The answers of [get_space_group_number], in order. *)
Definition detections (tr : list event) : list (res (option Z)) :=
  flat_map (fun ev => match ev with
                      | CallSpaceGroupNumber r => [r]
                      | _ => []
                      end) tr.

(** The number of structures synthesized. *)
Definition samples (tr : list event) : nat :=
  length (flat_map (fun ev => match ev with
                              | CallNewAtom _ => [ev]
                              | _ => []
                              end) tr).

(** A detection that returns, with something else than [spgn]. *)
Definition other_group (spgn : Z) (d : res (option Z)) : Prop :=
  match d with
  | Ok x => x <> Some spgn
  | Raise _ => False
  end.

Section Toolkit.
Variable tk : Toolkit.

(** At tolerance [symprec] the analyzer is built and does not report
    [spgn]: it reports another number or none, or raises [ValueError]. *)
Definition no_match (s : Structure) (symprec : Q) (spgn : Z) : Prop :=
  exists spga,
    SpacegroupAnalyzer tk s symprec = Ok spga /\
    match get_space_group_number tk spga with
    | Ok x => x <> Some spgn
    | Raise e => is_ValueError e = true
    end.

(** What one pass that finds no match leaves in the trace. *)
Definition pass_events (s : Structure) (symprec : Q) : list event :=
  match SpacegroupAnalyzer tk s symprec with
  | Ok spga =>
      [CallAnalyzer s symprec;
       CallSpaceGroupNumber (get_space_group_number tk spga)]
  | Raise _ => [CallAnalyzer s symprec]
  end.

(** The descent of the subgroup table of type [group_type] is
    well-founded: [rank] decreases from a group to each subgroup listed,
    and every subgroup listed is a group of the table. *)
Definition descends (group_type : string) (rank : Z -> nat) : Prop :=
  forall g group subgroups sg,
    symmetry_Group tk g = Ok group ->
    subgroups_of tk group group_type = Ok subgroups ->
    sg ∈ subgroups ->
    (rank sg < rank g)%nat /\ exists group', symmetry_Group tk sg = Ok group'.
End Toolkit.

End SymmetryTrace.

Module EnergyTrace.
Import Energy.

(** No usable energy is cached: none at all, or one equal to zero. *)
Definition uncached (s : Structure) : Prop :=
  match properties s !! "energy" with
  | Some q => (q == 0)%Q
  | None => True
  end.

(** The pair returned for [nsites] atoms at energy [e]. *)
Definition verdict (float_repr : Q -> string) (self : SmallEnergyAtoms)
    (nsites : Z) (e : Q) : bool * string :=
  match scan float_repr (cls_name self) nsites e (map_to_list (criteria self)) with
  | Some r => r
  | None => (false, cls_name self +:+ ". no condition satisfied")
  end.

End EnergyTrace.

Module GenerationLog.
Import Generation GenerationTrace.

Section Log.
Variable env : Env.

(** The log records the loop over [idxs] leaves, from evolver state [e]. *)
Fixpoint loop_warnings (current : option Structure) (idxs : list Z)
    (e : E env) : list event :=
  match idxs with
  | [] => []
  | i :: rest =>
      warnings env i (evolve env current e).1
      ++ loop_warnings current rest (evolve env current e).2
  end.

Definition is_warning (ev : event) : Prop :=
  exists msg args, ev = Log WARNING msg args.
End Log.

End GenerationLog.

Module DeriverTrace.
Import Symmetry.

Section Toolkit.
Variable tk : Toolkit.

(** The first steps of [get_subgroup_structure] go through: the seed is
    read, the expected number (if any) is the one detected, and the
    derivation returns [c_sub] first, leaving the generator at [g']. *)
Definition derived (structure : Structure) (spgn idx : option Z) (eps : Q)
    (group_type : string) (symprec angle_tolerance : Q)
    (expected_initial_spgn : option Z) (w : world tk)
    (c_sub : Pyxtal tk) (g' : R tk) : Prop :=
  exists c others,
    from_seed tk structure symprec angle_tolerance = Ok c /\
    match expected_initial_spgn with
    | Some n => group_number tk c = n
    | None => True
    end /\
    subgroup tk c spgn (option_map (fun i => [i]) idx) eps group_type (rng w)
    = (Ok (c_sub :: others), g').

(** The toolkit calls of these first steps. *)
Definition first_steps (structure : Structure) (spgn idx : option Z) (eps : Q)
    (group_type : string) (symprec angle_tolerance : Q) : list event :=
  [CallFromSeed structure symprec angle_tolerance;
   CallSubgroup spgn (option_map (fun i => [i]) idx) eps group_type].

(** The number the tolerance search looks for. *)
Definition target_of (spgn : option Z) (c_sub : Pyxtal tk) : Z :=
  match spgn with
  | None => group_number tk c_sub
  | Some n => n
  end.
End Toolkit.

End DeriverTrace.

Module ValidatorTrace.
Import Symmetry.

(** The toolkit calls [validate_subgroup] may make: the fit of the two
    structures, new atoms added to the derived structure, analyzers at
    the caller's tolerance and their space-group numbers.  No
    derivation, no primitive reduction, no symmetry operations. *)
Definition validation_call (structure_orig structure_sub : Structure)
    (symprec : Q) (ev : event) : Prop :=
  match ev with
  | CallFit a b => a = structure_orig /\ b = structure_sub
  | CallNewAtom template => template = structure_sub
  | CallAnalyzer _ p => p = symprec
  | CallSpaceGroupNumber _ => True
  | _ => False
  end.

End ValidatorTrace.

Module Binary64.
Import Symmetry.

(** A positive normal binary64 number: 53 significant bits times a power
    of two in the range of the format. *)
Definition binary64 (q : Q) : Prop :=
  exists m e : Z,
    (2 ^ 52 <= m < 2 ^ 53)%Z /\ (-1074 <= e <= 971)%Z /\
    (q == inject_Z m * 2 ^ e)%Q.

(** A positive normal binary64 number far enough from both ends of the
    format (from 2**-1019 to below 2**1016) for [eps * 2**i] and
    [eps * 2**i / 16], i = 1..8, to be binary64 numbers again: on such an
    [eps] the two float operations of line 70 round nothing. *)
Definition scalable (eps : Q) : Prop :=
  exists m e : Z,
    (2 ^ 52 <= m < 2 ^ 53)%Z /\ (-1071 <= e <= 963)%Z /\
    (eps == inject_Z m * 2 ^ e)%Q.

End Binary64.

Module ValidatorRounds.
Import Symmetry.

Section Rounds.
Variable tk : Toolkit.
Variable structure_sub : Structure.
Variable symm_ops : list SymmOp.
Variable symprec : Q.

(** [Rounds g ds g' evs]: starting with the generator at [g], as many
    samples as [ds] has elements are synthesized from [structure_sub] one
    after the other, an analyzer is built on each at [symprec] and asked
    its space-group number; [ds] are the answers, [g'] is the generator
    afterwards and [evs] the toolkit calls made. *)
Inductive Rounds : R tk -> list (res (option Z)) -> R tk -> list event -> Prop :=
| Rounds_nil (g : R tk) : Rounds g [] g []
| Rounds_cons (g g1 g2 : R tk) (s : Structure) (spga : Spga tk)
    (ds : list (res (option Z))) (evs : list event) :
    add_new_symmetrized_atom tk structure_sub symm_ops g = (Ok s, g1) ->
    SpacegroupAnalyzer tk s symprec = Ok spga ->
    Rounds g1 ds g2 evs ->
    Rounds g (get_space_group_number tk spga :: ds) g2
      (CallNewAtom structure_sub :: CallAnalyzer s symprec
       :: CallSpaceGroupNumber (get_space_group_number tk spga) :: evs).

(** A round started with the generator at [g] and cut short by the
    exception [e] of a toolkit call: of the synthesis, of the analyzer
    or of the detection; [tail] are the calls made and [g'] the
    generator afterwards. *)
Definition interrupted (g : R tk) (e : exn) (tail : list event) (g' : R tk)
    : Prop :=
  (add_new_symmetrized_atom tk structure_sub symm_ops g = (Raise e, g') /\
   tail = [CallNewAtom structure_sub])
  \/ (exists s,
        add_new_symmetrized_atom tk structure_sub symm_ops g = (Ok s, g') /\
        SpacegroupAnalyzer tk s symprec = Raise e /\
        tail = [CallNewAtom structure_sub; CallAnalyzer s symprec])
  \/ (exists s spga,
        add_new_symmetrized_atom tk structure_sub symm_ops g = (Ok s, g') /\
        SpacegroupAnalyzer tk s symprec = Ok spga /\
        get_space_group_number tk spga = Raise e /\
        tail = [CallNewAtom structure_sub; CallAnalyzer s symprec;
                CallSpaceGroupNumber (Raise e)]).
End Rounds.

End ValidatorRounds.

Module Expansions.
Import Symmetry.


End Expansions.

(** * More concrete inputs *)

Module Bench.

(** A calculator that always raises. *)
Definition failing_calculator : Energy.Calculator :=
  {| Energy.calculate := fun _ _ => Raise (Exception_ "CalculatorError") |}.

(** A stand-in for the text of a float. *)
Definition repr (q : Q) : string :=
  str_int (Qnum q) +:+ "/" +:+ str_int (Zpos (Qden q)).

(** A condition without criteria. *)
Definition no_criteria : Energy.SmallEnergyAtoms :=
  {| Energy.criteria := ∅;
     Energy.calculator := failing_calculator;
     Energy.constraints := None;
     Energy.cls_name := "SmallEnergyAtoms" |}.

(** An evolver that hands back what it was given, adding nothing. *)
Definition echo : Generation.Env :=
  {| Generation.E := nat;
     Generation.FS := list (string * Generation.Chgcar);
     Generation.evolve := fun current n =>
       (Ok [match current with Some c => c | None => Demo.atoms 0 None end],
        S n);
     Generation.probability_density := fun _ traj _ _ =>
       Ok [[[inject_Z (Z.of_nat (length traj))]]];
     Generation.write_file := fun c path fs =>
       match path with
       | Some name => (Ok tt, fs ++ [(name, c)])
       | None => (Raise (Exception_ "TypeError"), fs)
       end;
     Generation.format_exc := fun _ => "Traceback (most recent call last)";
     Generation.print_stats := "" |}.

(** The planned evolver of [Demo], with an estimator that raises. *)
Definition without_estimator (plan : nat -> nat) : Generation.Env :=
  {| Generation.E := nat;
     Generation.FS := list (string * Generation.Chgcar);
     Generation.evolve := Generation.evolve (Demo.planned plan);
     Generation.probability_density := fun _ _ _ _ =>
       Raise (ValueError "no density");
     Generation.write_file := Generation.write_file (Demo.planned plan);
     Generation.format_exc := Generation.format_exc (Demo.planned plan);
     Generation.print_stats := "profile" |}.

Definition boot (env : Generation.Env) (e : Generation.E env)
    (fs : Generation.FS env) : Generation.world env :=
  Generation.Build_world env e fs [].

(** A toolkit like [Demo.toolkit], with a primitive reduction [reduce]
    of its own and a derivation that returns a candidate only when
    [found]. *)
Definition lab (detect : Structure -> Q -> res (option Z))
    (reduce : Structure -> res Structure) (found : bool) : Symmetry.Toolkit :=
  {| Symmetry.R := nat;
     Symmetry.Pyxtal := Structure * Z;
     Symmetry.Spga := Structure * Q;
     Symmetry.Group := Z;
     Symmetry.from_seed := fun s _ _ => Ok (s, 227%Z);
     Symmetry.group_number := snd;
     Symmetry.subgroup := fun c H _ _ _ n =>
       (Ok (if found
            then [(c.1, match H with Some h => h | None => 166%Z end)]
            else []), S n);
     Symmetry.to_pymatgen := fst;
     Symmetry.SpacegroupAnalyzer := fun s symprec => Ok (s, symprec);
     Symmetry.get_space_group_number := fun a => detect a.1 a.2;
     Symmetry.get_primitive_standard_structure := fun a => reduce a.1;
     Symmetry.get_symmetry_operations := fun _ => Ok [Demo.identity_op];
     Symmetry.fit := fun _ _ _ a b =>
       Ok (Nat.eqb (length (frac_coords a)) (length (frac_coords b)));
     Symmetry.add_new_symmetrized_atom := fun s _ n =>
       (Ok (Demo.one_more (Some s) n), S n);
     Symmetry.symmetry_Group := fun g =>
       if ((1 <=? g) && (g <=? 230))%Z then Ok g
       else Raise (ValueError "unknown space group");
     Symmetry.max_t_subgroup := Demo.descending;
     Symmetry.max_k_subgroup := Demo.self_listing |}.

(** Group 166 is seen from tolerance 1 on, group 1 below. *)
Definition sees_from_1 (s : Structure) (symprec : Q) : res (option Z) :=
  if Qle_bool 1 symprec then Ok (Some 166%Z) else Ok (Some 1%Z).

(** Group 166 is seen in two-atom structures only; in the others group
    1, or nothing at all. *)
Definition sees_pairs (s : Structure) (symprec : Q) : res (option Z) :=
  if Nat.eqb (length (frac_coords s)) 2 then Ok (Some 166%Z)
  else Ok (Some 1%Z).

Definition sees_pairs_or_fails (s : Structure) (symprec : Q)
    : res (option Z) :=
  if Nat.eqb (length (frac_coords s)) 2 then Ok (Some 166%Z)
  else Raise (ValueError "spglib failed").

Definition crashes (s : Structure) (symprec : Q) : res (option Z) :=
  Raise (Exception_ "TypeError").

Definition keep (s : Structure) : res Structure := Ok s.
Definition halve (s : Structure) : res Structure := Ok (Demo.atoms 1 None).

(** A table whose group 3 lists a number that is no group. *)
Definition broken_table (g : Z) : list Z :=
  match g with
  | 3%Z => [2; 0; 1]%Z
  | 2%Z => [1]%Z
  | _ => []
  end.

Definition broken : Symmetry.Toolkit :=
  Demo.toolkit Demo.sees_P1 broken_table broken_table.

End Bench.

(** * Properties *)

(** ** Running the monad *)

Lemma bind_Ok {S A B} (m : M S A) (k : A -> M S B) (s s' : S) (a : A) :
  m s = (Ok a, s') -> bind m k s = k a s'.
Proof. unfold bind. by intros ->. Qed.

Lemma bind_Raise {S A B} (m : M S A) (k : A -> M S B) (s s' : S) (e : exn) :
  m s = (Raise e, s') -> bind m k s = (Raise e, s').
Proof. unfold bind. by intros ->. Qed.

(** ** The energy condition *)

Section EnergyFacts.
Import Energy.
Variable float_repr : Q -> string.

Lemma Qgtb_lt (x y : Q) : Qgtb x y = true <-> (y < x)%Q.
Proof.
  unfold Qgtb. rewrite negb_true_iff. split.
  - intros H. apply Qnot_le_lt. intros Hle.
    apply Qle_bool_iff in Hle. congruence.
  - intros H. destruct (Qle_bool x y) eqn:Hb; [|reflexivity].
    apply Qle_bool_iff in Hb. exfalso. exact (Qlt_not_le _ _ H Hb).
Qed.

Lemma Qis_zero_eq (x : Q) : Qis_zero x = true <-> (x == 0)%Q.
Proof. unfold Qis_zero. apply Qeq_bool_iff. Qed.

(** The loop returns at the first entry that is exceeded on both sides,
    hence exactly when some entry is. *)
Lemma scan_Some cls nsites e items r :
  scan float_repr cls nsites e items = Some r ->
  r = (true, cls +:+ ". nsites: " +:+ str_int nsites
               +:+ ", energy: " +:+ float_repr e)
  /\ exists n t, (n, t) ∈ items /\ (n < nsites)%Z /\ (t < e)%Q.
Proof.
  induction items as [|[n t] rest IH]; simpl; [discriminate|].
  destruct ((nsites >? n) && Qgtb e t) eqn:Hc.
  - intros [= <-]. split; [reflexivity|].
    apply andb_true_iff in Hc as [Hn He].
    exists n, t. split; [left|]. split; [lia|]. by apply Qgtb_lt.
  - intros H. destruct (IH H) as [-> (n' & t' & Hin & Hlt)].
    split; [reflexivity|]. exists n', t'. split; [by right | done].
Qed.

Lemma scan_None cls nsites e items :
  scan float_repr cls nsites e items = None ->
  forall n t, (n, t) ∈ items -> ~ ((n < nsites)%Z /\ (t < e)%Q).
Proof.
  induction items as [|[n t] rest IH]; simpl.
  - intros _ n t Hin. inversion Hin.
  - destruct ((nsites >? n) && Qgtb e t) eqn:Hc; [discriminate|].
    intros H n' t' Hin [Hn He].
    apply elem_of_cons in Hin as [[= -> ->]|Hin].
    + apply andb_false_iff in Hc as [Hc|Hc]; [lia|].
      apply Qgtb_lt in He. congruence.
    + exact (IH H n' t' Hin (conj Hn He)).
Qed.

(** The energy [satisfied] works with: the cached one when it is there
    and not zero, a freshly computed one otherwise. *)
Lemma satisfied_cached self w q :
  properties (target w) !! "energy" = Some q ->
  Qis_zero q = false ->
  exists r, satisfied float_repr self w = (Ok r, w).
Proof.
  intros Hq Hz. unfold satisfied, bind, get_property, get_state, ret.
  rewrite Hq, Hz.
  destruct (scan _ _ _ _ _); eauto.
Qed.

Lemma satisfied_computed self w :
  match properties (target w) !! "energy" with
  | Some q => Qis_zero q = true
  | None => True
  end ->
  calls (satisfied float_repr self w).2 = calls w ++ [target w].
Proof.
  intros Hq. unfold satisfied, bind, get_property, get_state, ret, get_energy.
  destruct (properties (target w) !! "energy") as [q|]; [rewrite Hq|];
    (destruct (calculate _ _ _); simpl; [destruct (scan _ _ _ _ _)|]; reflexivity).
Qed.

(** The value returned once the energy [e] is known. *)
Lemma verdict_spec (self : SmallEnergyAtoms) (nsites : Z) (e : Q) b reason :
  match scan float_repr (cls_name self) nsites e (map_to_list (criteria self)) with
  | Some r => r
  | None => (false, cls_name self +:+ ". no condition satisfied")
  end = (b, reason) ->
  (b = true <->
     exists n t, criteria self !! n = Some t /\ (n < nsites)%Z /\ (t < e)%Q) /\
  reason = (if b
            then cls_name self +:+ ". nsites: " +:+ str_int nsites
                 +:+ ", energy: " +:+ float_repr e
            else cls_name self +:+ ". no condition satisfied").
Proof.
  destruct (scan _ _ _ _ _) as [r|] eqn:Hs.
  - apply scan_Some in Hs as [-> (n & t & Hin & Hlt)].
    intros [= <- <-]. split; [|reflexivity].
    split; [|reflexivity]. intros _. exists n, t.
    split; [by apply elem_of_map_to_list | exact Hlt].
  - intros [= <- <-]. split; [|reflexivity].
    split; [discriminate|]. intros (n & t & Hin & Hlt).
    exfalso. apply (scan_None _ _ _ _ Hs n t); [|exact Hlt].
    by apply elem_of_map_to_list.
Qed.

(** C4. [SmallEnergyAtoms.satisfied] answers [True] exactly when some
    entry of the criteria table has its atom count strictly below the
    structure's atom count and its energy strictly below the structure's
    energy; whenever the energy is available (cached, or delivered by the
    calculator) the answer comes with a reason string, and the only way
    not to answer is an exception of the calculator.  On the table
    {100: -1.5, 200: -2.0}: 140 atoms at -1.3 give [True], 50 atoms at
    -0.1 give [False], 150 atoms at -1.8 give [False]. *)
Theorem satisfied_iff_some_entry_exceeded (self : SmallEnergyAtoms) (w : world) :
  match satisfied float_repr self w with
  | (Ok (b, reason), w') =>
      exists e,
        properties (target w') !! "energy" = Some e /\
        (b = true <->
           exists n t, criteria self !! n = Some t /\
                       (n < len (target w'))%Z /\ (t < e)%Q) /\
        reason = (if b
                  then cls_name self +:+ ". nsites: " +:+ str_int (len (target w'))
                       +:+ ", energy: " +:+ float_repr e
                  else cls_name self +:+ ". no condition satisfied")
  | (Raise x, _) =>
      calculate (calculator self) (target w) (constraints self) = Raise x
  end
  /\ (forall calc, exists reason,
        (satisfied float_repr (Demo.condition calc)
           (Demo.fresh (Demo.atoms 140 (Some (-1.3)%Q)))).1 = Ok (true, reason))
  /\ (forall calc, exists reason,
        (satisfied float_repr (Demo.condition calc)
           (Demo.fresh (Demo.atoms 50 (Some (-0.1)%Q)))).1 = Ok (false, reason))
  /\ (forall calc, exists reason,
        (satisfied float_repr (Demo.condition calc)
           (Demo.fresh (Demo.atoms 150 (Some (-1.8)%Q)))).1 = Ok (false, reason)).
Proof.
  split; [|repeat split; intros calc; eexists; vm_compute; reflexivity].
  unfold satisfied, bind, get_property, get_state, ret.
  assert (Hcomputed : forall e,
    calculate (calculator self) (target w) (constraints self) = Ok e ->
    forall b reason,
      match scan float_repr (cls_name self)
              (len (set_property "energy" e (target w))) e
              (map_to_list (criteria self)) with
      | Some r => r
      | None => (false, cls_name self +:+ ". no condition satisfied")
      end = (b, reason) ->
      exists e',
        properties (set_property "energy" e (target w)) !! "energy" = Some e' /\
        (b = true <->
           exists n t, criteria self !! n = Some t /\
             (n < len (set_property "energy" e (target w)))%Z /\ (t < e')%Q) /\
        reason = (if b
                  then cls_name self +:+ ". nsites: "
                       +:+ str_int (len (set_property "energy" e (target w)))
                       +:+ ", energy: " +:+ float_repr e'
                  else cls_name self +:+ ". no condition satisfied")).
  { intros e _ b reason Hv. exists e. split; [apply lookup_insert_eq|].
    by apply verdict_spec. }
  destruct (properties (target w) !! "energy") as [q|] eqn:Hq.
  - destruct (Qis_zero q) eqn:Hz.
    + unfold get_energy.
      destruct (calculate _ _ _) as [e|x] eqn:Hc; [|reflexivity].
      cbn [target]. specialize (Hcomputed e eq_refl).
      destruct (scan _ _ _ _ _) as [[b reason]|]; by apply Hcomputed.
    + pose proof (verdict_spec self (len (target w)) q) as Hv.
      destruct (scan _ _ _ _ _) as [[b reason]|];
        (exists q; split; [exact Hq|]; by apply Hv).
  - unfold get_energy.
    destruct (calculate _ _ _) as [e|x] eqn:Hc; [|reflexivity].
    cbn [target]. specialize (Hcomputed e eq_refl).
    destruct (scan _ _ _ _ _) as [[b reason]|]; by apply Hcomputed.
Qed.

(** C3, on the code: a structure whose cached energy is 0.0 is handed to
    the calculator again, and the cached value is overwritten. *)
Lemma cached_zero_energy_is_recomputed :
  let s := Demo.atoms 3 (Some 0%Q) in
  let w' := (satisfied float_repr (Demo.condition (Demo.constant_calculator (-1)%Q))
               (Demo.fresh s)).2 in
  properties s !! "energy" = Some 0%Q /\
  calls w' = [s] /\
  properties (target w') !! "energy" = Some (-1)%Q.
Proof. vm_compute. repeat split. Qed.
End EnergyFacts.

(** ** The density aggregator *)

Section GenerationFacts.
Import Generation GenerationTrace.
Variable env : Env.

Lemma extend_all_app (k : nat) (new_s : list Structure) (fcoords : list vec3) :
  extend_all k fcoords new_s
  = fcoords ++ flat_map (fun s => drop k (frac_coords s)) new_s.
Proof.
  unfold extend_all. revert fcoords.
  induction new_s as [|s rest IH]; intros fcoords; simpl.
  - by rewrite app_nil_r.
  - by rewrite IH, app_assoc.
Qed.

(** One attempt: the accumulator grows by the coordinates beyond the
    prefix, a failure leaves one warning, and nothing is raised. *)
Lemma attempt_eq (current : option Structure) (i : Z) (fcoords : list vec3)
    (w : world env) :
  attempt env current i fcoords w
  = (Ok (fcoords ++ new_coords current (evolve env current (evolver_state w)).1),
     {| evolver_state := (evolve env current (evolver_state w)).2;
        files := files w;
        events := events w
                  ++ warnings env i (evolve env current (evolver_state w)).1 |}).
Proof.
  unfold attempt, try_except, bind, call_evolve, logger_warning, emit, modify, ret.
  destruct (evolve env current (evolver_state w)) as [[new_s|x] e'];
    cbn [fst snd new_coords warnings].
  - destruct new_s as [|s rest]; cbn [flat_map].
    + by rewrite app_nil_r.
    + destruct current as [cur|]; rewrite extend_all_app;
        cbn [prefix events evolver_state files]; by rewrite app_nil_r.
  - by rewrite app_nil_r.
Qed.

Lemma replay_S (current : option Structure) (n : nat) (e : E env) :
  replay env current (S n) e
  = (evolve env current e).1 :: replay env current n (evolve env current e).2.
Proof. simpl. by destruct (evolve env current e). Qed.


Lemma warnings_are_logs (i : Z) (r : res (list Structure)) :
  Forall (fun ev => is_write ev = false) (warnings env i r).
Proof. destruct r as [[|s l]|x]; repeat constructor. Qed.

(** The whole loop, by induction on the indices still to run. *)
Lemma generate_eq (current : option Structure) (idxs : list Z) :
  forall (fcoords : list vec3) (w : world env),
  exists logs,
    generate env current idxs fcoords w
    = (Ok (fcoords ++ flat_map (new_coords current)
                        (replay env current (length idxs) (evolver_state w))),
       {| evolver_state := after env current (length idxs) (evolver_state w);
          files := files w;
          events := events w ++ logs |})
    /\ Forall (fun ev => is_write ev = false) logs.
Proof.
  induction idxs as [|i rest IH]; intros fcoords w.
  - exists []. split; [|constructor]. simpl. unfold ret.
    rewrite !app_nil_r. by destruct w.
  - cbn [generate length]. unfold bind. rewrite attempt_eq, replay_S.
    match goal with |- context [generate env current rest ?fc ?w1] =>
      destruct (IH fc w1) as (logs & -> & Hlogs) end.
    exists (warnings env i (evolve env current (evolver_state w)).1 ++ logs).
    split.
    + cbn [evolver_state files events flat_map after].
      by rewrite <- !app_assoc.
    + apply Forall_app. split; [apply warnings_are_logs | exact Hlogs].
Qed.

Lemma length_range (n : Z) : length (range n) = Z.to_nat n.
Proof. unfold range. by rewrite length_map, length_seq. Qed.


Lemma replay_outcome (current : option Structure) (n : nat) :
  forall (e : E env) r, r ∈ replay env current n e ->
  exists e0, r = (evolve env current e0).1.
Proof.
  induction n as [|n IH]; intros e r Hin.
  - inversion Hin.
  - rewrite replay_S in Hin. apply elem_of_cons in Hin as [->|Hin]; eauto.
Qed.

Lemma all_failed_no_coords (current : option Structure)
    (outcomes : list (res (list Structure))) :
  (forall r, r ∈ outcomes -> failed r = true) ->
  flat_map (new_coords current) outcomes = [].
Proof.
  induction outcomes as [|r rest IH]; intros Hall; [reflexivity|].
  cbn [flat_map]. rewrite IH.
  - assert (Hf := Hall r (proj2 (elem_of_cons _ _ _) (or_introl eq_refl))).
    destruct r as [[|s l]|x]; try reflexivity. discriminate.
  - intros r' Hin. apply Hall, elem_of_cons. by right.
Qed.


(** C6. An attempt in which the evolver raises, or returns no structure,
    leaves the accumulator as it was and one warning in the log; the loop
    goes on with the remaining attempts from that accumulator, and the
    loop as a whole always runs to its end. *)
Theorem failed_attempt_is_skipped (current : option Structure) (i : Z)
    (rest : list Z) (fcoords : list vec3) (w : world env) :
  failed (evolve env current (evolver_state w)).1 = true ->
  exists msg args,
    let w1 := {| evolver_state := (evolve env current (evolver_state w)).2;
                 files := files w;
                 events := events w ++ [Log WARNING msg args] |} in
    attempt env current i fcoords w = (Ok fcoords, w1) /\
    generate env current (i :: rest) fcoords w
    = generate env current rest fcoords w1 /\
    exists fcoords' w',
      generate env current (i :: rest) fcoords w = (Ok fcoords', w').
Proof.
  intros Hf.
  assert (exists msg args,
            warnings env i (evolve env current (evolver_state w)).1
            = [Log WARNING msg args]
            /\ new_coords current (evolve env current (evolver_state w)).1 = [])
    as (msg & args & Hw & Hn).
  { destruct (evolve env current (evolver_state w)).1 as [[|s l]|x];
      try discriminate; cbn; eauto. }
  exists msg, args. cbn zeta.
  assert (Ha : attempt env current i fcoords w
               = (Ok fcoords,
                  {| evolver_state := (evolve env current (evolver_state w)).2;
                     files := files w;
                     events := events w ++ [Log WARNING msg args] |})).
  { rewrite attempt_eq, Hw, Hn. by rewrite app_nil_r. }
  split; [exact Ha|]. split.
  - cbn [generate]. unfold bind. by rewrite Ha.
  - destruct (generate_eq current (i :: rest) fcoords w) as (logs & -> & _). eauto.
Qed.

(** C10. When every attempt fails or yields nothing, the accumulated
    list is empty and [distribution_density] raises [IndexError] at
    [fcoords[0]]: no density is estimated, nothing is written and no
    artifact is returned. *)
Theorem empty_accumulator_raises (template : Structure)
    (current : option Structure) (N : Z) (interval : Q)
    (filepath : option string) (profile : bool) (w : world env) :
  (forall r, r ∈ replay env current (Z.to_nat N) (evolver_state w) ->
             failed r = true) ->
  (generate env current (range N) [] w).1 = Ok [] /\
  exists msg w',
    distribution_density env template current N interval filepath profile w
    = (Raise (IndexError msg), w') /\
    files w' = files w /\
    Forall (fun ev => is_write ev = false) (drop (length (events w)) (events w')).
Proof.
  intros Hall.
  destruct (generate_eq current (range N) [] w) as (logs & Heq & Hlogs).
  rewrite length_range, (all_failed_no_coords current _ Hall) in Heq.
  cbn [app] in Heq. split; [by rewrite Heq|].
  unfold distribution_density, bind. rewrite Heq.
  destruct profile; unfold logger_info, emit, modify, ret, raise;
    cbn [map events files evolver_state]; eexists _, _;
    (split; [reflexivity|]; split; [reflexivity|]); cbn [events].
  - rewrite <- app_assoc, drop_app_length.
    apply Forall_app. split; [exact Hlogs|]. repeat constructor.
  - rewrite drop_app_length. exact Hlogs.
Qed.

(** C2, on the code: with [filepath=None] the writer is still called,
    with the missing path, and the function returns the artifact only
    if that call returns. *)
Theorem write_file_called_without_path (template : Structure)
    (current : option Structure) (N : Z) (interval : Q) (profile : bool)
    (w w1 : world env) (v : vec3) (fcoords : list vec3) (Pr : Grid) :
  generate env current (range N) [] w = (Ok (v :: fcoords), w1) ->
  probability_density env
    {| lattice := lattice template; species := ["C"];
       frac_coords := [v]; properties := ∅ |}
    (map (fun x => [x]) (v :: fcoords)) ["C"] interval = Ok Pr ->
  let chgcar :=
    {| poscar := match current with Some c => c | None => template end;
       data := [("total", Pr)] |} in
  let out :=
    distribution_density env template current N interval None profile w in
  WriteFile chgcar None ∈ events out.2 /\
  out.1 = match (write_file env chgcar None (files w1)).1 with
          | Ok _ => Ok chgcar
          | Raise e => Raise e
          end /\
  files out.2 = (write_file env chgcar None (files w1)).2.
Proof.
  intros Hgen Hpr chgcar out. subst out. cbn [map] in Hpr.
  unfold distribution_density, bind. rewrite Hgen.
  destruct profile; cbn [logger_info emit modify ret map lift_res];
    rewrite Hpr; fold chgcar;
    unfold call_write_file, bind, emit, modify, ret; cbn [files events];
    destruct (write_file env chgcar None (files w1)) as [[[]|e] fs'];
    cbn [fst snd events files];
    (split; [apply elem_of_app; right; apply elem_of_cons; by left | done]).
Qed.
End GenerationFacts.

Section GenerationWitnesses.
Import Generation GenerationTrace.


Lemma failed_attempt_is_skipped_witness :
  let env := Demo.planned Demo.mixed_plan in
  let w := Build_world env 1%nat [] [] in
  exists fcoords' w',
    generate env None [1; 2; 3]%Z [(0, 0, 0)%Q] w = (Ok fcoords', w').
Proof.
  intros env w.
  destruct (failed_attempt_is_skipped env None 1 [2; 3]%Z [(0, 0, 0)%Q] w)
    as (msg & args & _ & _ & Hrun).
  - reflexivity.
  - exact Hrun.
Defined.

Lemma empty_accumulator_raises_witness :
  let env := Demo.planned (fun _ => 1%nat) in
  exists msg w',
    distribution_density env (Demo.atoms 1 None) None 3 (1 # 2)
      (Some "CHGCAR") false (Demo.start _)
    = (Raise (IndexError msg), w').
Proof.
  intros env.
  destruct (empty_accumulator_raises env (Demo.atoms 1 None) None 3 (1 # 2)
              (Some "CHGCAR") false (Demo.start (fun _ => 1%nat)))
    as (_ & msg & w' & Hrun & _).
  - intros r Hin.
    destruct (replay_outcome env None _ _ _ Hin) as [e0 ->]. reflexivity.
  - exists msg, w'. exact Hrun.
Defined.

Lemma write_file_called_without_path_witness :
  let env := Demo.planned (fun _ => 0%nat) in
  let out :=
    distribution_density env (Demo.atoms 1 None) None 2 (1 # 2) None false
      (Demo.start _) in
  (exists c, WriteFile c None ∈ events out.2)
  /\ out.1 = Raise (Exception_ "TypeError").
Proof.
  intros env out.
  edestruct (write_file_called_without_path env (Demo.atoms 1 None) None 2
               (1 # 2) false (Demo.start (fun _ => 0%nat)))
    as (Hin & Hres & _).
  - reflexivity.
  - reflexivity.
  - split; [eexists; exact Hin | exact Hres].
Defined.
End GenerationWitnesses.

(** ** The subgroup deriver *)

Section DeriverFacts.
Import Symmetry SymmetryTrace.
Variable tk : Toolkit.

Lemma call_eq {A} (ev : event) (r : res A) (w : world tk) :
  call tk ev r w = (r, {| rng := rng w; trace := trace w ++ [ev] |}).
Proof. reflexivity. Qed.

Lemma call_random_eq {A} (ev : event) (m : M (R tk) A) (w : world tk) :
  call_random tk ev m w
  = ((m (rng w)).1, {| rng := (m (rng w)).2; trace := trace w ++ [ev] |}).
Proof.
  unfold call_random, bind, emit, modify. cbn [rng trace].
  by destruct (m (rng w)).
Qed.

Lemma eq_spgn_true (x : option Z) (spgn : Z) :
  eq_spgn x spgn = true <-> x = Some spgn.
Proof.
  destruct x as [n|]; simpl; [|split; discriminate].
  rewrite Z.eqb_eq. split; [by intros -> | by intros [= ->]].
Qed.

Lemma eq_spgn_false (x : option Z) (spgn : Z) :
  eq_spgn x spgn = false <-> x <> Some spgn.
Proof.
  rewrite <- eq_spgn_true. destruct (eq_spgn x spgn); split; done.
Qed.

(** [eps * 2**(i+1) / 16] is twice [eps * 2**i / 16]. *)
Lemma symprec_of_succ (eps : Q) (i : Z) :
  (0 <= i)%Z -> (symprec_of eps (i + 1) == 2 * symprec_of eps i)%Q.
Proof.
  intros Hi. unfold symprec_of.
  rewrite Z.pow_add_r, Z.pow_1_r by lia.
  rewrite inject_Z_mult. change (inject_Z 2) with 2%Q. field.
Qed.

Lemma primitive_pass_no_match (eps : Q) (spgn i : Z) (s : Structure)
    (w : world tk) :
  no_match tk s (symprec_of eps i) spgn ->
  primitive_pass tk eps spgn i s w
  = (Ok (Continue s),
     {| rng := rng w;
        trace := trace w ++ pass_events tk s (symprec_of eps i) |}).
Proof.
  intros (spga & Ha & Hn).
  unfold primitive_pass, pass_events, analyzer, space_group_number,
    except_ValueError, try_except, call, bind, emit, modify, lift_res, ret, raise.
  rewrite Ha. cbn [rng trace].
  destruct (get_space_group_number tk spga) as [x|e].
  - apply eq_spgn_false in Hn. rewrite Hn. by rewrite <- app_assoc.
  - rewrite Hn. by rewrite <- app_assoc.
Qed.

Lemma primitive_scan_no_match (eps : Q) (spgn : Z) (s : Structure)
    (idxs : list Z) :
  forall w : world tk,
  (forall i, i ∈ idxs -> no_match tk s (symprec_of eps i) spgn) ->
  primitive_scan tk eps spgn idxs s w
  = (Raise (RuntimeError
       "Could not find a value of symprec that matches the original space group"),
     {| rng := rng w;
        trace := trace w
                 ++ flat_map (fun i => pass_events tk s (symprec_of eps i)) idxs |}).
Proof.
  induction idxs as [|i rest IH]; intros w Hall.
  - cbn. unfold raise. rewrite app_nil_r. by destruct w.
  - cbn [primitive_scan]. unfold bind.
    rewrite primitive_pass_no_match
      by (apply Hall, elem_of_cons; by left).
    rewrite IH by (intros j Hj; apply Hall, elem_of_cons; by right).
    cbn [rng trace flat_map]. by rewrite <- app_assoc.
Qed.

Lemma tolerances_app (a b : list event) :
  tolerances (a ++ b) = tolerances a ++ tolerances b.
Proof. apply flat_map_app. Qed.

Lemma tolerances_passes (eps : Q) (s : Structure) (idxs : list Z) :
  tolerances (flat_map (fun i => pass_events tk s (symprec_of eps i)) idxs)
  = map (symprec_of eps) idxs.
Proof.
  induction idxs as [|i rest IH]; [reflexivity|].
  cbn [flat_map map]. rewrite tolerances_app, IH.
  unfold pass_events. by destruct (SpacegroupAnalyzer tk s (symprec_of eps i)).
Qed.

Lemma ratio_2_range (eps : Q) : ratio 2 (map (symprec_of eps) range_1_9).
Proof.
  intros i a b Ha Hb. unfold range_1_9 in *.
  do 7 (destruct i as [|i];
        [cbn in Ha, Hb; injection Ha as <-; injection Hb as <-;
         match goal with
         | |- (symprec_of eps ?j == 2 * symprec_of eps ?k)%Q =>
             exact (symprec_of_succ eps k ltac:(lia))
         end |]).
  cbn in Hb. destruct i; discriminate.
Qed.

(** C7. With [primitive=True] and [eps] equal to zero the call raises
    the [ValueError] of line 52 and leaves the state as it found it: no
    toolkit call is recorded and no random number is drawn. *)
Theorem primitive_with_zero_eps_raises (structure : Structure)
    (spgn idx : option Z) (eps : Q) (group_type : string)
    (symprec angle_tolerance : Q) (expected_initial_spgn : option Z)
    (w : world tk) :
  (eps == 0)%Q ->
  get_subgroup_structure tk structure spgn idx eps group_type true
    symprec angle_tolerance expected_initial_spgn w
  = (Raise (ValueError
       "to determine the primitive structure eps should be greater than 0"),
     w).
Proof.
  intros Heps. unfold get_subgroup_structure.
  apply Qis_zero_eq in Heps. by rewrite Heps.
Qed.

Lemma two_ne_0 : ~ (2 == 0)%Q.
Proof. intros H. discriminate H. Qed.

Lemma binary64_eq (q q' : Q) :
  (q == q')%Q -> Binary64.binary64 q' -> Binary64.binary64 q.
Proof.
  intros Heq (m & e & Hm & He & Hq). exists m, e.
  split; [exact Hm|]. split; [exact He|]. by rewrite Heq.
Qed.

Lemma symprec_of_power (eps : Q) (i : Z) :
  (0 <= i)%Z -> (symprec_of eps i == eps * 2 ^ (i - 4))%Q.
Proof.
  intros Hi. unfold symprec_of. rewrite (Zpower_Qpower 2 i Hi).
  unfold Z.sub. rewrite (Qpower_plus 2 i (-4) two_ne_0).
  change (2 ^ (-4))%Q with (/ 16)%Q. change (inject_Z 2) with 2%Q.
  unfold Qdiv. ring.
Qed.

Lemma scaled_binary64 (eps : Q) (k : Z) :
  Binary64.scalable eps -> (-3 <= k <= 8)%Z ->
  Binary64.binary64 (eps * 2 ^ k).
Proof.
  intros (m & e & Hm & He & Heq) Hk.
  exists m, (e + k)%Z. split; [exact Hm|]. split; [lia|].
  rewrite Heq, (Qpower_plus 2 e k two_ne_0). ring.
Qed.

(** Neither operation of line 70 leaves the format. *)
Lemma tolerances_exact (eps : Q) (i : Z) :
  Binary64.scalable eps -> (1 <= i <= 8)%Z ->
  Binary64.binary64 (eps * inject_Z (2 ^ i)) /\
  Binary64.binary64 (symprec_of eps i).
Proof.
  intros Heps Hi. split.
  - apply (binary64_eq _ (eps * 2 ^ i)).
    + rewrite (Zpower_Qpower 2 i) by lia. reflexivity.
    + apply scaled_binary64; [exact Heps | lia].
  - apply (binary64_eq _ (eps * 2 ^ (i - 4))).
    + apply symprec_of_power. lia.
    + apply scaled_binary64; [exact Heps | lia].
Qed.

Lemma range_1_9_bounds (i : Z) : i ∈ range_1_9 -> (1 <= i <= 8)%Z.
Proof.
  unfold range_1_9. rewrite !elem_of_cons, elem_of_nil. lia.
Qed.

(** C1 (amended). With [primitive=True] and [eps > 0], for an [eps] on
    which the scaling of line 70 is exact in binary64 (a normal double
    from 2**-1019 to below 2**1016), once the subgroup structure is
    derived: when at none of the tolerances [eps * 2**i / 16], i = 1..8,
    the analyzer reports the target number (it reports another number
    or none, or raises ValueError), exactly these 8 tolerances are
    tried, in this order, and the call raises the [RuntimeError] of line
    83.  Each tolerance is a binary64 number and twice the one before it:
    they grow from eps/8 to 16*eps. *)
Theorem tolerance_scan_doubles (structure : Structure) (spgn idx : option Z)
    (eps : Q) (group_type : string) (symprec angle_tolerance : Q)
    (expected_initial_spgn : option Z) (w : world tk)
    (c c_sub : Pyxtal tk) (others : list (Pyxtal tk)) (g' : R tk) :
  (0 < eps)%Q ->
  Binary64.scalable eps ->
  from_seed tk structure symprec angle_tolerance = Ok c ->
  match expected_initial_spgn with
  | Some n => group_number tk c = n
  | None => True
  end ->
  subgroup tk c spgn (option_map (fun i => [i]) idx) eps group_type (rng w)
  = (Ok (c_sub :: others), g') ->
  let target := match spgn with
                | None => group_number tk c_sub
                | Some n => n
                end in
  (forall i, i ∈ range_1_9 ->
     no_match tk (to_pymatgen tk c_sub) (symprec_of eps i) target) ->
  let out := get_subgroup_structure tk structure spgn idx eps group_type true
               symprec angle_tolerance expected_initial_spgn w in
  out.1 = Raise (RuntimeError
    "Could not find a value of symprec that matches the original space group")
  /\ (exists new,
       trace out.2 = trace w ++ new /\
       tolerances new = map (symprec_of eps) range_1_9 /\
       length (tolerances new) = 8%nat /\
       ratio 2 (tolerances new))
  /\ (forall i, i ∈ range_1_9 ->
        Binary64.binary64 (eps * inject_Z (2 ^ i)) /\
        Binary64.binary64 (symprec_of eps i)).
Proof.
  intros Heps Hexact Hseed Hexp Hsub target Hnone out. subst out.
  split; [|split];
    [| |intros i Hi; apply tolerances_exact;
        [exact Hexact | by apply range_1_9_bounds]].
  all: unfold get_subgroup_structure.
  all: assert (Qis_zero eps = false) as ->
    by (destruct (Qis_zero eps) eqn:Hz; [|reflexivity];
        apply Qis_zero_eq in Hz; rewrite Hz in Heps;
        exfalso; exact (Qlt_irrefl 0 Heps)).
  all: cbn [andb].
  all: erewrite bind_Ok by (rewrite call_eq, Hseed; reflexivity).
  all: assert (match expected_initial_spgn with
               | Some n => negb (group_number tk c =? n)%Z
               | None => false
               end = false) as ->
    by (destruct expected_initial_spgn as [n|]; [|reflexivity];
        rewrite Hexp, Z.eqb_refl; reflexivity).
  all: erewrite bind_Ok
    by (rewrite call_random_eq; cbn [rng trace]; rewrite Hsub; reflexivity).
  all: cbv beta iota; fold target.
  all: erewrite bind_Raise by (apply primitive_scan_no_match, Hnone).
  all: cbn [fst snd rng trace].
  - reflexivity.
  - eexists. split; [by rewrite <- !app_assoc|].
    rewrite !tolerances_app, tolerances_passes. cbn [tolerances flat_map app].
    split; [reflexivity|]. split; [reflexivity|]. apply ratio_2_range.
Qed.
End DeriverFacts.

Section DeriverWitnesses.
Import Symmetry SymmetryTrace.

Lemma primitive_with_zero_eps_raises_witness :
  exists msg,
    get_subgroup_structure Demo.blind (Demo.atoms 2 None) (Some 166%Z) None
      0%Q "t" true (1 # 1000) 5%Q None (Demo.seed Demo.blind 7%nat)
    = (Raise (ValueError msg), Demo.seed Demo.blind 7%nat).
Proof.
  eexists.
  apply (primitive_with_zero_eps_raises Demo.blind (Demo.atoms 2 None)
           (Some 166%Z) None 0%Q "t" (1 # 1000) 5%Q None
           (Demo.seed Demo.blind 7%nat)).
  reflexivity.
Defined.

Lemma tolerance_scan_doubles_witness :
  let out :=
    get_subgroup_structure Demo.blind (Demo.atoms 2 None) (Some 166%Z) None
      1%Q "t" true (1 # 1000) 5%Q None (Demo.seed Demo.blind 0%nat) in
  (0 < 1)%Q /\
  Binary64.scalable 1 /\
  exists msg, out.1 = Raise (RuntimeError msg).
Proof.
  intros out. split; [reflexivity|].
  assert (Hexact : Binary64.scalable 1).
  { exists (2 ^ 52)%Z, (-52)%Z.
    split; [split; [reflexivity | reflexivity]|].
    split; [split; discriminate|]. reflexivity. }
  split; [exact Hexact|].
  edestruct (tolerance_scan_doubles Demo.blind (Demo.atoms 2 None)
               (Some 166%Z) None 1%Q "t" (1 # 1000) 5%Q None
               (Demo.seed Demo.blind 0%nat)) as [Hres _].
  - reflexivity.
  - exact Hexact.
  - reflexivity.
  - exact I.
  - reflexivity.
  - intros i _. eexists. split; [reflexivity|]. cbn. discriminate.
  - eexists. exact Hres.
Defined.

(** C1, as stated: on an input where no tolerance matches, the second
    tolerance tried is not half the first. *)
Lemma tolerances_are_not_halved :
  let out :=
    get_subgroup_structure Demo.blind (Demo.atoms 2 None) (Some 166%Z) None
      1%Q "t" true (1 # 1000) 5%Q None (Demo.seed Demo.blind 0%nat) in
  length (tolerances (trace out.2)) = 8%nat /\
  ~ ratio (1 # 2) (tolerances (trace out.2)).
Proof.
  split; [reflexivity|].
  intros Hhalf.
  specialize (Hhalf 0%nat _ _ eq_refl eq_refl).
  vm_compute in Hhalf. discriminate.
Qed.
End DeriverWitnesses.

(** ** The subgroup validator *)

Section ValidatorFacts.
Import Symmetry SymmetryTrace.
Variable tk : Toolkit.

Lemma samples_app (a b : list event) :
  samples (a ++ b) = (samples a + samples b)%nat.
Proof. unfold samples. by rewrite flat_map_app, length_app. Qed.

Lemma detections_app (a b : list event) :
  detections (a ++ b) = detections a ++ detections b.
Proof. apply flat_map_app. Qed.

(** The sampling loop over [idxs]: at most one structure per index; it
    breaks at the first detection equal to [sub_spgn], and runs to the
    end when every detection is something else. *)
Lemma sample_loop_outcome (structure_sub : Structure) (symm_ops : list SymmOp)
    (sub_spgn : Z) (symprec : Q) (idxs : list Z) :
  forall w : world tk,
  let out := sample_loop tk structure_sub symm_ops sub_spgn symprec idxs w in
  exists new,
    trace out.2 = trace w ++ new /\
    (samples new <= length idxs)%nat /\
    match out.1 with
    | Ok true =>
        exists earlier,
          detections new = earlier ++ [Ok (Some sub_spgn)] /\
          Forall (other_group sub_spgn) earlier /\
          samples new = length (detections new)
    | Ok false =>
        samples new = length idxs /\
        length (detections new) = length idxs /\
        Forall (other_group sub_spgn) (detections new)
    | Raise _ => True
    end.
Proof.
  induction idxs as [|i rest IH]; intros w out; subst out.
  - exists []. cbn. rewrite app_nil_r. repeat split; constructor.
  - cbn [sample_loop length].
    destruct (add_new_symmetrized_atom tk structure_sub symm_ops (rng w))
      as [[s|e] g'] eqn:Hnew.
    2:{ erewrite bind_Raise
          by (rewrite call_random_eq, Hnew; reflexivity).
        eexists. split; [reflexivity|]. cbn. split; [lia|exact I]. }
    erewrite bind_Ok by (rewrite call_random_eq, Hnew; reflexivity).
    cbn [fst snd].
    destruct (SpacegroupAnalyzer tk s symprec) as [spga|e] eqn:Hspga.
    2:{ erewrite bind_Raise
          by (unfold analyzer; rewrite call_eq, Hspga; reflexivity).
        cbn [fst snd rng trace]. eexists.
        split; [by rewrite <- app_assoc|]. cbn. split; [lia|exact I]. }
    erewrite bind_Ok
      by (unfold analyzer; rewrite call_eq, Hspga; reflexivity).
    cbn [rng trace].
    destruct (get_space_group_number tk spga) as [x|e] eqn:Hx.
    2:{ erewrite bind_Raise
          by (unfold space_group_number; rewrite call_eq, Hx; reflexivity).
        cbn [fst snd rng trace]. eexists.
        split; [by rewrite <- !app_assoc|]. cbn. split; [lia|exact I]. }
    erewrite bind_Ok
      by (unfold space_group_number; rewrite call_eq, Hx; reflexivity).
    cbn [rng trace].
    destruct (eq_spgn x sub_spgn) eqn:Heq.
    + apply eq_spgn_true in Heq as ->. unfold ret. cbn [fst snd trace].
      eexists. split; [by rewrite <- !app_assoc|]. cbn.
      split; [lia|]. exists []. repeat split. constructor.
    + apply eq_spgn_false in Heq.
      match goal with |- context [sample_loop tk _ _ _ _ rest ?w1] =>
        destruct (IH w1) as (new & Htr & Hle & Hout);
        destruct (sample_loop tk structure_sub symm_ops sub_spgn symprec rest w1)
          as [r w2] end.
      cbn [fst snd trace] in *.
      exists ([CallNewAtom structure_sub; CallAnalyzer s symprec;
               CallSpaceGroupNumber (Ok x)] ++ new).
      split; [rewrite Htr; by rewrite <- !app_assoc|].
      rewrite samples_app, detections_app.
      change (samples [CallNewAtom structure_sub; CallAnalyzer s symprec;
                       CallSpaceGroupNumber (Ok x)]) with 1%nat.
      change (detections [CallNewAtom structure_sub; CallAnalyzer s symprec;
                          CallSpaceGroupNumber (Ok x)]) with [Ok x].
      split; [lia|].
      destruct r as [[|]|e]; [| |exact I].
      * destruct Hout as (earlier & Hd & Hall & Hn).
        exists (Ok x :: earlier). rewrite Hd. split; [reflexivity|].
        split; [by constructor|].
        rewrite Hn, Hd. cbn [app length]. reflexivity.
      * destruct Hout as (Hn & Hl & Hall).
        cbn [app length]. rewrite Hn, Hl.
        repeat split. by constructor.
Qed.

Lemma Rounds_trace (structure_sub : Structure) (symm_ops : list SymmOp)
    (symprec : Q) (g g' : R tk) (ds : list (res (option Z)))
    (evs : list event) :
  ValidatorRounds.Rounds tk structure_sub symm_ops symprec g ds g' evs ->
  detections evs = ds /\ samples evs = length ds.
Proof.
  induction 1 as [g|g g1 g2 s spga ds evs Hnew Hspga Hrest [IHd IHs]].
  - by split.
  - split.
    + change (get_space_group_number tk spga :: detections evs
              = get_space_group_number tk spga :: ds). by rewrite IHd.
    + change (S (samples evs) = S (length ds)). by rewrite IHs.
Qed.

(** The sampling loop, round by round: it ends with the first detection
    equal to [sub_spgn], or after a round for each index with every
    detection something else, or with the exception of a toolkit call
    that cut a round short. *)
Lemma sample_loop_rounds (structure_sub : Structure) (symm_ops : list SymmOp)
    (sub_spgn : Z) (symprec : Q) (idxs : list Z) :
  forall w : world tk,
  let out := sample_loop tk structure_sub symm_ops sub_spgn symprec idxs w in
  exists new,
    trace out.2 = trace w ++ new /\
    match out.1 with
    | Ok true =>
        exists earlier,
          ValidatorRounds.Rounds tk structure_sub symm_ops symprec (rng w)
            (earlier ++ [Ok (Some sub_spgn)]) (rng out.2) new /\
          Forall (other_group sub_spgn) earlier /\
          (length earlier < length idxs)%nat
    | Ok false =>
        exists ds,
          ValidatorRounds.Rounds tk structure_sub symm_ops symprec (rng w)
            ds (rng out.2) new /\
          length ds = length idxs /\
          Forall (other_group sub_spgn) ds
    | Raise e =>
        exists earlier g evs tail,
          ValidatorRounds.Rounds tk structure_sub symm_ops symprec (rng w)
            earlier g evs /\
          Forall (other_group sub_spgn) earlier /\
          (length earlier < length idxs)%nat /\
          new = evs ++ tail /\
          ValidatorRounds.interrupted tk structure_sub symm_ops symprec
            g e tail (rng out.2)
    end.
Proof.
  induction idxs as [|i rest IH]; intros w out; subst out.
  - exists []. cbn. rewrite app_nil_r. split; [reflexivity|].
    exists []. split; [apply ValidatorRounds.Rounds_nil|]. by split.
  - cbn [sample_loop length].
    destruct (add_new_symmetrized_atom tk structure_sub symm_ops (rng w))
      as [[s|e] g'] eqn:Hnew.
    2:{ erewrite bind_Raise
          by (rewrite call_random_eq, Hnew; reflexivity).
        cbn [fst snd rng trace]. eexists. split; [reflexivity|].
        exists [], (rng w), [], [CallNewAtom structure_sub].
        split; [apply ValidatorRounds.Rounds_nil|]. split; [constructor|].
        split; [cbn [length]; lia|]. split; [reflexivity|]. left. by split. }
    erewrite bind_Ok by (rewrite call_random_eq, Hnew; reflexivity).
    cbn [fst snd].
    destruct (SpacegroupAnalyzer tk s symprec) as [spga|e] eqn:Hspga.
    2:{ erewrite bind_Raise
          by (unfold analyzer; rewrite call_eq, Hspga; reflexivity).
        cbn [fst snd rng trace]. eexists.
        split; [by rewrite <- app_assoc|].
        exists [], (rng w), [],
          [CallNewAtom structure_sub; CallAnalyzer s symprec].
        split; [apply ValidatorRounds.Rounds_nil|]. split; [constructor|].
        split; [cbn [length]; lia|]. split; [reflexivity|].
        right. left. exists s. by repeat split. }
    erewrite bind_Ok
      by (unfold analyzer; rewrite call_eq, Hspga; reflexivity).
    cbn [rng trace].
    destruct (get_space_group_number tk spga) as [x|e] eqn:Hx.
    2:{ erewrite bind_Raise
          by (unfold space_group_number; rewrite call_eq, Hx; reflexivity).
        cbn [fst snd rng trace]. eexists.
        split; [by rewrite <- !app_assoc|].
        exists [], (rng w), [],
          [CallNewAtom structure_sub; CallAnalyzer s symprec;
           CallSpaceGroupNumber (Raise e)].
        split; [apply ValidatorRounds.Rounds_nil|]. split; [constructor|].
        split; [cbn [length]; lia|]. split; [reflexivity|].
        right. right. exists s, spga. by repeat split. }
    erewrite bind_Ok
      by (unfold space_group_number; rewrite call_eq, Hx; reflexivity).
    cbn [rng trace].
    assert (Hround : ValidatorRounds.Rounds tk structure_sub symm_ops symprec
              (rng w) [Ok x] g'
              [CallNewAtom structure_sub; CallAnalyzer s symprec;
               CallSpaceGroupNumber (Ok x)]).
    { rewrite <- Hx. eapply ValidatorRounds.Rounds_cons; eauto.
      apply ValidatorRounds.Rounds_nil. }
    destruct (eq_spgn x sub_spgn) eqn:Heq.
    + apply eq_spgn_true in Heq. subst x. unfold ret. cbn [fst snd rng trace].
      eexists. split; [by rewrite <- !app_assoc|].
      exists []. split; [exact Hround|]. split; [constructor | cbn [length]; lia].
    + apply eq_spgn_false in Heq.
      match goal with |- context [sample_loop tk _ _ _ _ rest ?w1] =>
        destruct (IH w1) as (new & Htr & Hout);
        destruct (sample_loop tk structure_sub symm_ops sub_spgn symprec rest w1)
          as [r w2] end.
      cbn [fst snd rng trace] in *.
      exists ([CallNewAtom structure_sub; CallAnalyzer s symprec;
               CallSpaceGroupNumber (Ok x)] ++ new).
      split; [rewrite Htr; by rewrite <- !app_assoc|].
      assert (Hcons : forall ds g2 evs,
                ValidatorRounds.Rounds tk structure_sub symm_ops symprec
                  g' ds g2 evs ->
                ValidatorRounds.Rounds tk structure_sub symm_ops symprec
                  (rng w) (Ok x :: ds) g2
                  ([CallNewAtom structure_sub; CallAnalyzer s symprec;
                    CallSpaceGroupNumber (Ok x)] ++ evs)).
      { intros ds g2 evs Hrest. rewrite <- Hx. cbn [app].
        eapply ValidatorRounds.Rounds_cons; eauto. }
      destruct r as [[|]|e].
      * destruct Hout as (earlier & Hr & Hall & Hlen).
        exists (Ok x :: earlier). split; [by apply Hcons|].
        split; [by constructor | cbn [length]; lia].
      * destruct Hout as (ds & Hr & Hlen & Hall).
        exists (Ok x :: ds). split; [by apply Hcons|].
        split; [cbn [length]; by rewrite Hlen | by constructor].
      * destruct Hout as (earlier & g & evs & tail & Hr & Hall & Hlen
                          & -> & Hint).
        exists (Ok x :: earlier), g,
          ([CallNewAtom structure_sub; CallAnalyzer s symprec;
            CallSpaceGroupNumber (Ok x)] ++ evs), tail.
        split; [by apply Hcons|]. split; [by constructor|].
        split; [cbn [length]; lia|]. split; [by rewrite <- app_assoc|].
        exact Hint.
Qed.

(** C8. [validate_subgroup] first asks the structure matcher.  On a
    mismatch it returns the reason "structures do not fit" without
    raising, having drawn no random number and called nothing else.  On
    a fit it synthesizes samples from the derived structure and its
    operations, one round after the other, at most 10: it returns [None]
    exactly after the first detection equal to [sub_spgn], which ends the
    sampling; after 10 rounds whose detections are all something else it
    returns the reason naming [sub_spgn].  It raises only the exception
    of a toolkit call that cut a round short; when the toolkit calls
    return, it returns. *)
Theorem validate_subgroup_outcome (structure_orig structure_sub : Structure)
    (symm_ops : list SymmOp) (sub_spgn : Z) (ltol stol angle_tol symprec : Q)
    (w : world tk) :
  let out := validate_subgroup tk structure_orig structure_sub symm_ops
               sub_spgn ltol stol angle_tol symprec w in
  (exists new,
    trace out.2 = trace w ++ CallFit structure_orig structure_sub :: new /\
    match fit tk ltol angle_tol stol structure_orig structure_sub with
    | Raise e => out.1 = Raise e /\ new = [] /\ rng out.2 = rng w
    | Ok false =>
        out.1 = Ok (Some "structures do not fit") /\
        new = [] /\ rng out.2 = rng w
    | Ok true =>
        (samples new <= 10)%nat /\
        match out.1 with
        | Ok None =>
            exists earlier,
              ValidatorRounds.Rounds tk structure_sub symm_ops symprec (rng w)
                (earlier ++ [Ok (Some sub_spgn)]) (rng out.2) new /\
              detections new = earlier ++ [Ok (Some sub_spgn)] /\
              Forall (other_group sub_spgn) earlier /\
              samples new = length (detections new)
        | Ok (Some reason) =>
            reason = "generated structures do not belong to the spacegroup "
                     +:+ str_int sub_spgn /\
            ValidatorRounds.Rounds tk structure_sub symm_ops symprec (rng w)
              (detections new) (rng out.2) new /\
            samples new = 10%nat /\
            length (detections new) = 10%nat /\
            Forall (other_group sub_spgn) (detections new)
        | Raise e =>
            exists earlier g evs tail,
              ValidatorRounds.Rounds tk structure_sub symm_ops symprec (rng w)
                earlier g evs /\
              Forall (other_group sub_spgn) earlier /\
              (length earlier < 10)%nat /\
              new = evs ++ tail /\
              ValidatorRounds.interrupted tk structure_sub symm_ops symprec
                g e tail (rng out.2)
        end
    end)
  /\ ((forall a b, exists ok,
         fit tk ltol angle_tol stol a b = Ok ok) ->
      (forall g, exists s g',
         add_new_symmetrized_atom tk structure_sub symm_ops g = (Ok s, g')) ->
      (forall s, exists spga, SpacegroupAnalyzer tk s symprec = Ok spga) ->
      (forall spga, exists x, get_space_group_number tk spga = Ok x) ->
      exists r, out.1 = Ok r).
Proof.
  intros out.
  assert (Hmain : exists new,
    trace out.2 = trace w ++ CallFit structure_orig structure_sub :: new /\
    match fit tk ltol angle_tol stol structure_orig structure_sub with
    | Raise e => out.1 = Raise e /\ new = [] /\ rng out.2 = rng w
    | Ok false =>
        out.1 = Ok (Some "structures do not fit") /\
        new = [] /\ rng out.2 = rng w
    | Ok true =>
        (samples new <= 10)%nat /\
        match out.1 with
        | Ok None =>
            exists earlier,
              ValidatorRounds.Rounds tk structure_sub symm_ops symprec (rng w)
                (earlier ++ [Ok (Some sub_spgn)]) (rng out.2) new /\
              detections new = earlier ++ [Ok (Some sub_spgn)] /\
              Forall (other_group sub_spgn) earlier /\
              samples new = length (detections new)
        | Ok (Some reason) =>
            reason = "generated structures do not belong to the spacegroup "
                     +:+ str_int sub_spgn /\
            ValidatorRounds.Rounds tk structure_sub symm_ops symprec (rng w)
              (detections new) (rng out.2) new /\
            samples new = 10%nat /\
            length (detections new) = 10%nat /\
            Forall (other_group sub_spgn) (detections new)
        | Raise e =>
            exists earlier g evs tail,
              ValidatorRounds.Rounds tk structure_sub symm_ops symprec (rng w)
                earlier g evs /\
              Forall (other_group sub_spgn) earlier /\
              (length earlier < 10)%nat /\
              new = evs ++ tail /\
              ValidatorRounds.interrupted tk structure_sub symm_ops symprec
                g e tail (rng out.2)
        end
    end).
  { subst out. unfold validate_subgroup.
    destruct (fit tk ltol angle_tol stol structure_orig structure_sub)
      as [[|]|e] eqn:Hfit.
    - erewrite bind_Ok by apply call_eq.
      cbn [negb]. cbv beta iota. unfold bind.
      match goal with |- context [sample_loop tk _ _ _ _ _ ?w1] =>
        destruct (sample_loop_rounds structure_sub symm_ops sub_spgn symprec
                    (range 10) w1) as (new & Htr & Hout);
        destruct (sample_loop tk structure_sub symm_ops sub_spgn symprec
                    (range 10) w1) as [r w2] end.
      cbn [fst snd rng trace] in *. change (length (range 10)) with 10%nat in *.
      exists new.
      destruct r as [[|]|e]; unfold ret; cbn [fst snd];
        (split; [rewrite Htr; by rewrite <- app_assoc|]).
      + destruct Hout as (earlier & Hr & Hall & Hlen).
        destruct (Rounds_trace _ _ _ _ _ _ _ Hr) as [Hd Hs].
        split; [rewrite Hs, length_app; cbn [length]; lia|].
        exists earlier. rewrite Hd, Hs. by repeat split.
      + destruct Hout as (ds & Hr & Hlen & Hall).
        destruct (Rounds_trace _ _ _ _ _ _ _ Hr) as [Hd Hs].
        split; [rewrite Hs; lia|].
        rewrite Hd, Hs. by repeat split.
      + destruct Hout as (earlier & g & evs & tail & Hr & Hall & Hlen
                          & -> & Hint).
        destruct (Rounds_trace _ _ _ _ _ _ _ Hr) as [Hd Hs].
        split.
        * rewrite samples_app, Hs.
          destruct Hint as [[_ ->]|[(s & _ & _ & ->)|(s & a & _ & _ & _ & ->)]];
            cbn; lia.
        * exists earlier, g, evs, tail. by repeat split.
    - erewrite bind_Ok by apply call_eq.
      cbn [negb]. cbv beta iota. unfold ret. cbn [fst snd rng trace].
      exists []. repeat split.
    - erewrite bind_Raise by apply call_eq.
      cbn [fst snd rng trace]. exists []. repeat split. }
  split; [exact Hmain|].
  intros Hfit Hnew Hspga Hnum.
  destruct Hmain as (new & _ & Hcases).
  destruct (Hfit structure_orig structure_sub) as [ok Hok].
  rewrite Hok in Hcases. destruct ok.
  - destruct Hcases as [_ Hcases].
    destruct out.1 as [r|e]; [eauto|].
    destruct Hcases as (earlier & g & evs & tail & _ & _ & _ & _ & Hint).
    exfalso.
    destruct Hint as [[Hraise _]|[(s & _ & Hraise & _)|(s & a & _ & _ & Hraise & _)]].
    + destruct (Hnew g) as (s & g1 & Hs). congruence.
    + destruct (Hspga s) as (a & Ha). congruence.
    + destruct (Hnum a) as (x & Hx). congruence.
  - destruct Hcases as [-> _]. eauto.
Qed.
End ValidatorFacts.

(** ** The subgroup enumerator *)

Section EnumeratorFacts.
Import Symmetry SymmetryTrace.
Variable tk : Toolkit.

Lemma subgroups_of_valid (group : Group tk) (group_type : string) :
  group_type = "t" \/ group_type = "k" ->
  exists subgroups, subgroups_of tk group group_type = Ok subgroups.
Proof. intros [->| ->]; eexists; reflexivity. Qed.

Lemma subgroups_of_invalid (group : Group tk) (group_type : string) :
  group_type <> "t" -> group_type <> "k" ->
  subgroups_of tk group group_type
  = Raise (ValueError "group_type should be either 't' or 'k'").
Proof.
  intros Ht Hk. unfold subgroups_of.
  apply String.eqb_neq in Ht, Hk. by rewrite Ht, Hk.
Qed.

(** The loop over [subgroups], when the recursive calls return. *)
Lemma fold_add_subgroup (rec : Z -> res pyval) (subgroups : list Z) :
  forall d0 : gmap Z pyval,
  (forall sg, sg ∈ subgroups -> exists v, rec sg = Ok v) ->
  exists d,
    fold_left (add_subgroup rec) subgroups (Ok d0) = Ok d /\
    (forall sg, is_Some (d !! sg) <-> sg ∈ subgroups \/ is_Some (d0 !! sg)) /\
    (forall sg v, d !! sg = Some v -> d0 !! sg = Some v \/ rec sg = Ok v).
Proof.
  induction subgroups as [|sg rest IH]; intros d0 Hrec.
  - exists d0. split; [reflexivity|]. split.
    + intros sg. rewrite elem_of_nil. tauto.
    + intros sg v H. by left.
  - cbn [fold_left]. unfold add_subgroup at 2.
    assert (Hrest : forall x, x ∈ rest -> exists v, rec x = Ok v).
    { intros x Hx. apply Hrec, elem_of_cons. by right. }
    destruct (d0 !! sg) as [v0|] eqn:Hseen.
    + destruct (IH d0 Hrest) as (d & Hfold & Hdom & Hval).
      exists d. split; [exact Hfold|]. split; [|exact Hval].
      intros x. rewrite Hdom, elem_of_cons.
      split; [tauto|]. intros [[->|Hx]|Hx]; auto.
    + destruct (Hrec sg) as [v Hv]; [apply elem_of_cons; by left|].
      rewrite Hv.
      destruct (IH (<[sg := v]> d0) Hrest) as (d & Hfold & Hdom & Hval).
      exists d. split; [exact Hfold|]. split.
      * intros x. rewrite Hdom, elem_of_cons, lookup_insert_is_Some.
        destruct (decide (sg = x)) as [->|Hne]; [tauto|].
        split; [intros [?|[?|[? ?]]]; auto | intros [[->|?]|?]; auto].
      * intros x v' Hx. destruct (Hval x v' Hx) as [Hin|Hr]; [|by right].
        destruct (decide (sg = x)) as [->|Hne].
        -- rewrite lookup_insert_eq in Hin. injection Hin as <-. by right.
        -- rewrite lookup_insert_ne in Hin by done. by left.
Qed.

(** Along a well-founded descent, fuel above the rank is enough. *)
Lemma get_subgroups_returns (group_type : string) (rank : Z -> nat) :
  group_type = "t" \/ group_type = "k" ->
  descends tk group_type rank ->
  forall (fuel : nat) (spgn : Z) (group : Group tk),
    symmetry_Group tk spgn = Ok group ->
    (rank spgn < fuel)%nat ->
    exists d, get_subgroups tk fuel spgn true group_type = Ok (PyDict d).
Proof.
  intros Hgt Hdesc. induction fuel as [|fuel IH]; intros spgn group Hg Hrank;
    [lia|].
  cbn [get_subgroups]. rewrite Hg.
  destruct (subgroups_of_valid group group_type Hgt) as [subgroups Hs].
  rewrite Hs.
  destruct (fold_add_subgroup
              (fun sg => get_subgroups tk fuel sg true group_type)
              subgroups ∅) as (d & -> & _).
  - intros sg Hin.
    destruct (Hdesc spgn group subgroups sg Hg Hs Hin) as [Hlt [group' Hg']].
    destruct (IH sg group' Hg') as [d' Hd']; [lia|]. eauto.
  - eauto.
Qed.

(** X27. Let the descent of the table of type "t" or "k" be
    well-founded: some rank decreases from each group to each subgroup
    it lists.  Then for a group of the table and a call depth above its
    rank, [get_subgroups] with [recursive=True] returns a dictionary
    whose keys are exactly the elements of the list returned with
    [recursive=False], each mapped to the dictionary its own recursive
    call returns; a relation type other than "t" and "k" raises
    [ValueError]. *)
Theorem get_subgroups_recursive (group_type : string) (rank : Z -> nat)
    (spgn : Z) (group : Group tk) (fuel : nat) :
  group_type = "t" \/ group_type = "k" ->
  descends tk group_type rank ->
  symmetry_Group tk spgn = Ok group ->
  (rank spgn < fuel)%nat ->
  exists subgroups d,
    get_subgroups tk fuel spgn false group_type = Ok (PyList subgroups) /\
    get_subgroups tk fuel spgn true group_type = Ok (PyDict d) /\
    (forall sg, is_Some (d !! sg) <-> sg ∈ subgroups) /\
    (forall sg v, d !! sg = Some v ->
       get_subgroups tk (pred fuel) sg true group_type = Ok v /\
       exists d', v = PyDict d') /\
    (forall other recursive,
       other <> "t" -> other <> "k" ->
       get_subgroups tk fuel spgn recursive other
       = Raise (ValueError "group_type should be either 't' or 'k'")).
Proof.
  intros Hgt Hdesc Hg Hrank.
  destruct fuel as [|fuel]; [lia|]. cbn [pred].
  destruct (subgroups_of_valid group group_type Hgt) as [subgroups Hs].
  assert (Hrec : forall sg, sg ∈ subgroups ->
            exists v, get_subgroups tk fuel sg true group_type = Ok v).
  { intros sg Hin.
    destruct (Hdesc spgn group subgroups sg Hg Hs Hin) as [Hlt [group' Hg']].
    destruct (get_subgroups_returns group_type rank Hgt Hdesc fuel sg group' Hg')
      as [d' Hd']; [lia|]. eauto. }
  destruct (fold_add_subgroup
              (fun sg => get_subgroups tk fuel sg true group_type)
              subgroups ∅ Hrec) as (d & Hfold & Hdom & Hval).
  assert (Hkeys : forall sg, is_Some (d !! sg) <-> sg ∈ subgroups).
  { intros sg. rewrite Hdom, lookup_empty. split; [|by left].
    intros [?|[? ?]]; [done|discriminate]. }
  exists subgroups, d. cbn [get_subgroups]. rewrite Hg, Hs, Hfold.
  split; [reflexivity|]. split; [reflexivity|]. split; [exact Hkeys|].
  split.
  { intros sg v Hv. destruct (Hval sg v Hv) as [Hin|Hr].
    - by rewrite lookup_empty in Hin.
    - split; [exact Hr|].
      assert (Hin : sg ∈ subgroups).
      { apply Hkeys. by exists v. }
      destruct (Hdesc spgn group subgroups sg Hg Hs Hin) as [Hlt [group' Hg']].
      destruct (get_subgroups_returns group_type rank Hgt Hdesc fuel sg group'
                  Hg') as [d' Hd']; [lia|].
      exists d'. congruence. }
  intros other recursive Ht Hk.
  by rewrite (subgroups_of_invalid group other Ht Hk).
Qed.
(** When the loop returns, every number listed was in the dictionary
    already or had its expansion return. *)
Lemma fold_add_subgroup_Ok (rec : Z -> res pyval) (subgroups : list Z) :
  forall (d0 d : gmap Z pyval),
  fold_left (add_subgroup rec) subgroups (Ok d0) = Ok d ->
  forall sg, sg ∈ subgroups ->
    is_Some (d0 !! sg) \/ exists v, rec sg = Ok v.
Proof.
  induction subgroups as [|x rest IH]; intros d0 d Hfold sg Hin.
  - by apply elem_of_nil in Hin.
  - cbn [fold_left] in Hfold. unfold add_subgroup at 2 in Hfold.
    destruct (d0 !! x) as [v0|] eqn:Hx.
    + apply elem_of_cons in Hin as [->|Hin]; [left; by exists v0|].
      exact (IH d0 d Hfold sg Hin).
    + destruct (rec x) as [v|e] eqn:Hv.
      * apply elem_of_cons in Hin as [->|Hin]; [right; by exists v|].
        destruct (IH _ d Hfold sg Hin) as [Hsome|Hret]; [|by right].
        apply lookup_insert_is_Some in Hsome as [->|[_ Hsome]];
          [right; by exists v | by left].
      * exfalso. clear -Hfold.
        assert (Hraise : forall l,
                  fold_left (add_subgroup rec) l (Raise e) = Raise e)
          by (induction l as [|y l IHl]; [reflexivity | exact IHl]).
        rewrite Hraise in Hfold. discriminate.
Qed.

(** C9, on the code: a group that the table lists among its own maximal
    subgroups (group 1 in the klassengleiche table, which lists its
    isomorphic subgroups) is expanded again inside its own expansion:
    with [recursive=True] the call returns at no call depth, it ends in
    an exception (the interpreter's [RecursionError]) instead of the
    nested dictionary. *)
Theorem self_listing_group_never_returns (spgn : Z) (group : Group tk)
    (group_type : string) (subgroups : list Z) :
  symmetry_Group tk spgn = Ok group ->
  subgroups_of tk group group_type = Ok subgroups ->
  spgn ∈ subgroups ->
  forall fuel,
    exists e, get_subgroups tk fuel spgn true group_type = Raise e.
Proof.
  intros Hg Hs Hself fuel.
  induction fuel as [|fuel [e IH]]; [by exists RecursionError|].
  cbn [get_subgroups]. rewrite Hg, Hs.
  destruct (fold_left
              (add_subgroup (fun sg => get_subgroups tk fuel sg true group_type))
              subgroups (Ok ∅)) as [d|e'] eqn:Hfold; [|by exists e'].
  exfalso.
  destruct (fold_add_subgroup_Ok _ subgroups ∅ d Hfold spgn Hself)
    as [[v Hsome]|[v Hret]].
  - by rewrite lookup_empty in Hsome.
  - cbv beta in Hret. congruence.
Qed.
End EnumeratorFacts.

Section EnumeratorWitnesses.
Import Symmetry SymmetryTrace.

Lemma descending_descends : descends Demo.blind "t" Z.to_nat.
Proof.
  intros g group subgroups sg Hg Hs Hin.
  cbn in Hg. destruct ((1 <=? g)%Z && (g <=? 230)%Z); [|discriminate].
  injection Hg as <-. injection Hs as <-.
  assert (Hcases : Demo.descending g = [2; 2; 1]%Z /\ g = 3%Z
                   \/ Demo.descending g = [1]%Z /\ g = 2%Z
                   \/ Demo.descending g = []).
  { destruct g as [|[p|p|]|p]; try (by right; right);
      destruct p; auto. }
  destruct Hcases as [[Hd ->]|[[Hd ->]|Hd]]; rewrite Hd in Hin.
  - rewrite !elem_of_cons, elem_of_nil in Hin.
    destruct Hin as [->|[->|[->|[]]]];
      (split; [cbn; lia | eexists; reflexivity]).
  - rewrite !elem_of_cons, elem_of_nil in Hin.
    destruct Hin as [->|[]]. split; [cbn; lia | eexists; reflexivity].
  - by apply elem_of_nil in Hin.
Defined.

Lemma get_subgroups_recursive_witness :
  exists d,
    get_subgroups Demo.blind 4 3 true "t" = Ok (PyDict d) /\
    (forall sg, is_Some (d !! sg) <-> sg ∈ [2; 2; 1]%Z).
Proof.
  destruct (get_subgroups_recursive Demo.blind "t" Z.to_nat 3 3%Z 4)
    as (subgroups & d & Hflat & Hrec & Hkeys & _).
  - by left.
  - exact descending_descends.
  - reflexivity.
  - cbn. lia.
  - exists d. split; [exact Hrec|].
    injection Hflat as <-. exact Hkeys.
Defined.

Lemma self_listing_group_never_returns_witness :
  exists e, get_subgroups Demo.looping 1000 1 true "k" = Raise e.
Proof.
  apply (self_listing_group_never_returns Demo.looping 1%Z 1%Z "k" [1%Z]).
  - reflexivity.
  - reflexivity.
  - apply elem_of_cons. by left.
Defined.
End EnumeratorWitnesses.

(** * Further properties *)

(** ** The energy condition: caching, failures, frame *)

Section EnergyMore.
Import Energy EnergyTrace.
Variable float_repr : Q -> string.

Lemma Qis_zero_false (q : Q) : Qis_zero q = false <-> ~ (q == 0)%Q.
Proof.
  rewrite <- Qis_zero_eq. destruct (Qis_zero q); split; done.
Qed.

Lemma len_set_property (name : string) (v : Q) (s : Structure) :
  len (set_property name v s) = len s.
Proof. reflexivity. Qed.

(** The three ways a call can go. *)
Lemma satisfied_cached_eq (self : SmallEnergyAtoms) (w : world) (q : Q) :
  properties (target w) !! "energy" = Some q ->
  ~ (q == 0)%Q ->
  satisfied float_repr self w
  = (Ok (verdict float_repr self (len (target w)) q), w).
Proof.
  intros Hq Hz. apply Qis_zero_false in Hz.
  unfold satisfied, verdict, bind, get_property, get_state, ret.
  rewrite Hq, Hz. by destruct (scan _ _ _ _ _).
Qed.

Lemma satisfied_computed_eq (self : SmallEnergyAtoms) (w : world) (e : Q) :
  uncached (target w) ->
  calculate (calculator self) (target w) (constraints self) = Ok e ->
  satisfied float_repr self w
  = (Ok (verdict float_repr self (len (target w)) e),
     {| target := set_property "energy" e (target w);
        calls := calls w ++ [target w] |}).
Proof.
  intros Hu Hc. unfold uncached in Hu.
  unfold satisfied, verdict, bind, get_property, get_state, ret, get_energy.
  destruct (properties (target w) !! "energy") as [q|].
  - apply Qis_zero_eq in Hu. rewrite Hu, Hc. cbn [target].
    rewrite len_set_property. by destruct (scan _ _ _ _ _).
  - rewrite Hc. cbn [target].
    rewrite len_set_property. by destruct (scan _ _ _ _ _).
Qed.

Lemma satisfied_failed_eq (self : SmallEnergyAtoms) (w : world) (x : exn) :
  uncached (target w) ->
  calculate (calculator self) (target w) (constraints self) = Raise x ->
  satisfied float_repr self w
  = (Raise x, {| target := target w; calls := calls w ++ [target w] |}).
Proof.
  intros Hu Hc. unfold uncached in Hu.
  unfold satisfied, bind, get_property, get_state, ret, get_energy.
  destruct (properties (target w) !! "energy") as [q|].
  - apply Qis_zero_eq in Hu. by rewrite Hu, Hc.
  - by rewrite Hc.
Qed.

Lemma cached_or_uncached (s : Structure) :
  (exists q, properties s !! "energy" = Some q /\ ~ (q == 0)%Q) \/ uncached s.
Proof.
  unfold uncached. destruct (properties s !! "energy") as [q|]; [|by right].
  destruct (Qis_zero q) eqn:Hz.
  - right. by apply Qis_zero_eq.
  - left. exists q. split; [reflexivity|]. by apply Qis_zero_false.
Qed.

(** X1. A cached energy different from zero is used as it is: the call
    returns a verdict and leaves the state untouched, so the calculator
    is not run and the structure is not modified. *)
Theorem cached_energy_is_reused (self : SmallEnergyAtoms) (w : world) (q : Q) :
  properties (target w) !! "energy" = Some q ->
  ~ (q == 0)%Q ->
  (satisfied float_repr self w).2 = w /\
  exists b reason, (satisfied float_repr self w).1 = Ok (b, reason).
Proof.
  intros Hq Hz. rewrite (satisfied_cached_eq self w q Hq Hz).
  split; [reflexivity|].
  destruct (verdict float_repr self (len (target w)) q) as [b reason]. eauto.
Qed.

(** X2. When the energy has to be computed and the calculator delivers a
    non-zero value, the value is cached: a second call on the same
    structure returns the same pair and does not run the calculator
    again (one run in total). *)
Theorem second_call_uses_cache (self : SmallEnergyAtoms) (w : world) (e : Q) :
  uncached (target w) ->
  calculate (calculator self) (target w) (constraints self) = Ok e ->
  ~ (e == 0)%Q ->
  let first := satisfied float_repr self w in
  satisfied float_repr self first.2 = (first.1, first.2) /\
  calls first.2 = calls w ++ [target w] /\
  properties (target first.2) !! "energy" = Some e.
Proof.
  intros Hu Hc Hz first. subst first.
  rewrite (satisfied_computed_eq self w e Hu Hc). cbn [fst snd].
  assert (Hq : properties (target
             {| target := set_property "energy" e (target w);
                calls := calls w ++ [target w] |}) !! "energy" = Some e)
    by apply lookup_insert_eq.
  rewrite (satisfied_cached_eq self _ e Hq Hz).
  cbn [target calls]. rewrite len_set_property. by split.
Qed.

(** X3. When the energy has to be computed and the calculator raises,
    the exception leaves [satisfied] as it is, and the structure is not
    modified: no energy is cached. *)
Theorem calculator_failure_propagates (self : SmallEnergyAtoms) (w : world)
    (x : exn) :
  uncached (target w) ->
  calculate (calculator self) (target w) (constraints self) = Raise x ->
  (satisfied float_repr self w).1 = Raise x /\
  target (satisfied float_repr self w).2 = target w /\
  calls (satisfied float_repr self w).2 = calls w ++ [target w].
Proof.
  intros Hu Hc. by rewrite (satisfied_failed_eq self w x Hu Hc).
Qed.

(** X4. Whatever happens, [satisfied] leaves the sites of the structure
    as they were (lattice, species and coordinates), and it runs the
    calculator at most once, on the structure as it was handed in. *)
Theorem satisfied_frame (self : SmallEnergyAtoms) (w : world) :
  let w' := (satisfied float_repr self w).2 in
  lattice (target w') = lattice (target w) /\
  species (target w') = species (target w) /\
  frac_coords (target w') = frac_coords (target w) /\
  (calls w' = calls w \/ calls w' = calls w ++ [target w]).
Proof.
  intros w'. subst w'.
  destruct (cached_or_uncached (target w)) as [(q & Hq & Hz)|Hu].
  - rewrite (satisfied_cached_eq self w q Hq Hz). cbn [snd]. auto 6.
  - destruct (calculate (calculator self) (target w) (constraints self))
      as [e|x] eqn:Hc.
    + rewrite (satisfied_computed_eq self w e Hu Hc). cbn [snd target calls].
      repeat split; auto.
    + rewrite (satisfied_failed_eq self w x Hu Hc). cbn [snd target calls].
      auto 6.
Qed.

(** X5. The condition is monotone: if it holds for a structure, it holds
    for every structure with at least as many atoms and at least as high
    an energy (cached energies, different from zero). *)
Theorem satisfied_monotone (self : SmallEnergyAtoms) (w1 w2 : world)
    (q1 q2 : Q) (reason : string) :
  properties (target w1) !! "energy" = Some q1 -> ~ (q1 == 0)%Q ->
  properties (target w2) !! "energy" = Some q2 -> ~ (q2 == 0)%Q ->
  (len (target w1) <= len (target w2))%Z ->
  (q1 <= q2)%Q ->
  (satisfied float_repr self w1).1 = Ok (true, reason) ->
  exists reason', (satisfied float_repr self w2).1 = Ok (true, reason').
Proof.
  intros Hq1 Hz1 Hq2 Hz2 Hlen Hle.
  rewrite (satisfied_cached_eq self w1 q1 Hq1 Hz1),
          (satisfied_cached_eq self w2 q2 Hq2 Hz2). cbn [fst].
  intros [= Hv1].
  apply (verdict_spec float_repr self (len (target w1)) q1) in Hv1
    as [[Hex _] _].
  destruct (Hex eq_refl) as (n & t & Hnt & Hn & Ht).
  destruct (verdict float_repr self (len (target w2)) q2) as [b2 r2] eqn:Hv2.
  apply (verdict_spec float_repr self (len (target w2)) q2) in Hv2
    as [[_ Hb2] _].
  rewrite Hb2; [eauto|].
  exists n, t. split; [exact Hnt|]. split; [lia|].
  exact (Qlt_le_trans _ _ _ Ht Hle).
Qed.

(** X6. With an empty criteria table the answer, whenever there is one,
    is [False] with the reason "no condition satisfied". *)
Theorem empty_criteria_never_satisfied (self : SmallEnergyAtoms) (w w' : world)
    (b : bool) (reason : string) :
  criteria self = ∅ ->
  satisfied float_repr self w = (Ok (b, reason), w') ->
  b = false /\ reason = cls_name self +:+ ". no condition satisfied".
Proof.
  intros Hempty Hrun.
  assert (Hv : forall n e,
            verdict float_repr self n e
            = (false, cls_name self +:+ ". no condition satisfied")).
  { intros n e. unfold verdict. by rewrite Hempty, map_to_list_empty. }
  destruct (cached_or_uncached (target w)) as [(q & Hq & Hz)|Hu].
  - rewrite (satisfied_cached_eq self w q Hq Hz), Hv in Hrun.
    by injection Hrun as <- <- _.
  - destruct (calculate (calculator self) (target w) (constraints self))
      as [e|x] eqn:Hc.
    + rewrite (satisfied_computed_eq self w e Hu Hc), Hv in Hrun.
      by injection Hrun as <- <- _.
    + rewrite (satisfied_failed_eq self w x Hu Hc) in Hrun. discriminate.
Qed.

(** X7. The loop over the criteria returns the same value in whatever
    order, and however often, the entries are visited. *)
Theorem scan_order_irrelevant (cls : string) (nsites : Z) (e : Q)
    (items1 items2 : list (Z * Q)) :
  (forall entry, entry ∈ items1 <-> entry ∈ items2) ->
  scan float_repr cls nsites e items1 = scan float_repr cls nsites e items2.
Proof.
  intros Hsame.
  destruct (scan float_repr cls nsites e items1) as [r1|] eqn:H1;
    destruct (scan float_repr cls nsites e items2) as [r2|] eqn:H2.
  - apply scan_Some in H1 as [-> _]. apply scan_Some in H2 as [-> _].
    reflexivity.
  - apply scan_Some in H1 as [_ (n & t & Hin & Hlt)].
    exfalso. apply (scan_None _ _ _ _ _ H2 n t); [by apply Hsame | exact Hlt].
  - apply scan_Some in H2 as [_ (n & t & Hin & Hlt)].
    exfalso. apply (scan_None _ _ _ _ _ H1 n t); [by apply Hsame | exact Hlt].
  - reflexivity.
Qed.
End EnergyMore.

Section EnergyMoreWitnesses.
Import Energy EnergyTrace.

Lemma cached_energy_is_reused_witness :
  let self := Demo.condition Bench.failing_calculator in
  let w := Demo.fresh (Demo.atoms 140 (Some (-1.3)%Q)) in
  (satisfied Bench.repr self w).2 = w.
Proof.
  intros self w.
  apply (cached_energy_is_reused Bench.repr self w (-1.3)%Q).
  - reflexivity.
  - intros H. discriminate H.
Defined.

Lemma second_call_uses_cache_witness :
  let self := Demo.condition (Demo.constant_calculator (-1.8)%Q) in
  let w := Demo.fresh (Demo.atoms 150 None) in
  let first := satisfied Bench.repr self w in
  satisfied Bench.repr self first.2 = (first.1, first.2) /\
  calls first.2 = [Demo.atoms 150 None].
Proof.
  intros self w first.
  destruct (second_call_uses_cache Bench.repr self w (-1.8)%Q)
    as (Hsame & Hcalls & _).
  - exact I.
  - reflexivity.
  - intros H. discriminate H.
  - split; [exact Hsame | exact Hcalls].
Defined.

Lemma calculator_failure_propagates_witness :
  let self := Demo.condition Bench.failing_calculator in
  let w := Demo.fresh (Demo.atoms 3 None) in
  (satisfied Bench.repr self w).1 = Raise (Exception_ "CalculatorError") /\
  target (satisfied Bench.repr self w).2 = Demo.atoms 3 None.
Proof.
  intros self w.
  destruct (calculator_failure_propagates Bench.repr self w
              (Exception_ "CalculatorError")) as (Hres & Htarget & _).
  - exact I.
  - reflexivity.
  - split; [exact Hres | exact Htarget].
Defined.

Lemma satisfied_monotone_witness :
  let self := Demo.condition Bench.failing_calculator in
  exists reason,
    (satisfied Bench.repr self (Demo.fresh (Demo.atoms 150 (Some (-1)%Q)))).1
    = Ok (true, reason).
Proof.
  intros self.
  eapply (satisfied_monotone Bench.repr self
            (Demo.fresh (Demo.atoms 140 (Some (-1.3)%Q)))
            (Demo.fresh (Demo.atoms 150 (Some (-1)%Q)))
            (-1.3)%Q (-1)%Q).
  - reflexivity.
  - intros H. discriminate H.
  - reflexivity.
  - intros H. discriminate H.
  - vm_compute. discriminate.
  - vm_compute. discriminate.
  - vm_compute. reflexivity.
Defined.

Lemma empty_criteria_never_satisfied_witness :
  exists w',
    satisfied Bench.repr Bench.no_criteria
      (Demo.fresh (Demo.atoms 500 (Some 7%Q)))
    = (Ok (false, "SmallEnergyAtoms. no condition satisfied"), w').
Proof.
  destruct (satisfied Bench.repr Bench.no_criteria
              (Demo.fresh (Demo.atoms 500 (Some 7%Q))))
    as [[[b reason]|x] w'] eqn:Hrun; [|discriminate Hrun].
  destruct (empty_criteria_never_satisfied Bench.repr Bench.no_criteria
              (Demo.fresh (Demo.atoms 500 (Some 7%Q))) w' b reason)
    as [-> ->].
  - reflexivity.
  - exact Hrun.
  - exists w'. reflexivity.
Defined.

Lemma scan_order_irrelevant_witness :
  scan Bench.repr "SmallEnergyAtoms" 140 (-1.3)%Q
    [(100%Z, (-1.5)%Q); (200%Z, (-2)%Q)]
  = scan Bench.repr "SmallEnergyAtoms" 140 (-1.3)%Q
      [(200%Z, (-2)%Q); (100%Z, (-1.5)%Q); (200%Z, (-2)%Q)].
Proof.
  apply scan_order_irrelevant.
  intros entry. rewrite !elem_of_cons, elem_of_nil. tauto.
Defined.
End EnergyMoreWitnesses.

(** ** The density aggregator: the loop, the log, the artifact *)

Section GenerationMore.
Import Generation GenerationTrace GenerationLog.
Variable env : Env.

Lemma generate_events (current : option Structure) (idxs : list Z) :
  forall (fcoords : list vec3) (w : world env),
  events (generate env current idxs fcoords w).2
  = events w ++ loop_warnings env current idxs (evolver_state w).
Proof.
  induction idxs as [|i rest IH]; intros fcoords w.
  - cbn. by rewrite app_nil_r.
  - cbn [generate loop_warnings]. unfold bind. rewrite attempt_eq, IH.
    cbn [events evolver_state]. by rewrite app_assoc.
Qed.

Lemma loop_warnings_count (current : option Structure) (idxs : list Z) :
  forall e : E env,
  length (loop_warnings env current idxs e)
  = length (List.filter failed (replay env current (length idxs) e)).
Proof.
  induction idxs as [|i rest IH]; intros e; [reflexivity|].
  cbn [loop_warnings length]. rewrite replay_S, length_app, IH.
  cbn [List.filter].
  by destruct (evolve env current e).1 as [[|s l]|x].
Qed.

Lemma loop_warnings_level (current : option Structure) (idxs : list Z) :
  forall e : E env, Forall is_warning (loop_warnings env current idxs e).
Proof.
  induction idxs as [|i rest IH]; intros e; [constructor|].
  cbn [loop_warnings]. apply Forall_app. split; [|apply IH].
  destruct (evolve env current e).1 as [[|s l]|x]; repeat constructor;
    unfold is_warning; eauto.
Qed.

(** X11. The loop calls the evolver exactly once per index, each time
    from the state the previous call left and whether or not earlier
    calls failed, and it does not touch the files. *)
Theorem evolver_called_once_per_attempt (current : option Structure) (N : Z)
    (w : world env) :
  let out := generate env current (range N) [] w in
  evolver_state out.2 = after env current (Z.to_nat N) (evolver_state w) /\
  files out.2 = files w.
Proof.
  intros out. subst out.
  destruct (generate_eq env current (range N) [] w) as (logs & -> & _).
  rewrite length_range. by split.
Qed.

(** X12. The loop logs exactly one record per failed attempt, at level
    WARNING, and nothing else. *)
Theorem one_warning_per_failed_attempt (current : option Structure) (N : Z)
    (w : world env) :
  let out := generate env current (range N) [] w in
  let outcomes := replay env current (Z.to_nat N) (evolver_state w) in
  exists logs,
    events out.2 = events w ++ logs /\
    length logs = length (List.filter failed outcomes) /\
    Forall is_warning logs.
Proof.
  intros out outcomes. subst out outcomes.
  exists (loop_warnings env current (range N) (evolver_state w)).
  split; [apply generate_events|]. split.
  - by rewrite loop_warnings_count, length_range.
  - apply loop_warnings_level.
Qed.

(** X13. An attempt that returns structures none of which has more atoms
    than [current] adds no coordinate and logs nothing: it is not
    counted as a failure. *)
Theorem attempt_without_new_atoms_is_silent (cur : Structure) (i : Z)
    (fcoords : list vec3) (w : world env) (new_s : list Structure)
    (e' : E env) :
  evolve env (Some cur) (evolver_state w) = (Ok new_s, e') ->
  new_s <> [] ->
  (forall s, s ∈ new_s ->
     (length (frac_coords s) <= length (frac_coords cur))%nat) ->
  attempt env (Some cur) i fcoords w
  = (Ok fcoords,
     {| evolver_state := e'; files := files w; events := events w |}).
Proof.
  intros Hev Hne Hshort. rewrite attempt_eq, Hev. cbn [fst snd].
  assert (Hnone : flat_map (fun s => drop (prefix (Some cur)) (frac_coords s))
                    new_s = []).
  { clear Hev Hne. induction new_s as [|s rest IH]; [reflexivity|].
    cbn [flat_map prefix]. rewrite drop_ge.
    - apply IH. intros s' Hin. apply Hshort, elem_of_cons. by right.
    - apply Hshort, elem_of_cons. by left. }
  cbn [new_coords]. rewrite Hnone.
  destruct new_s as [|s rest]; [done|]. cbn [warnings].
  by rewrite !app_nil_r.
Qed.

(** X14. The loop only ever appends: run from an accumulator
    [fcoords], it returns [fcoords] followed by exactly what the same
    run returns from the empty accumulator, and it leaves the same
    state.  What has been collected is neither dropped nor reordered,
    and has no influence on what follows. *)
Theorem generate_only_appends (current : option Structure) (idxs : list Z) :
  forall (fcoords : list vec3) (w : world env),
  generate env current idxs fcoords w
  = (match (generate env current idxs [] w).1 with
     | Ok added => Ok (fcoords ++ added)
     | Raise e => Raise e
     end,
     (generate env current idxs [] w).2).
Proof.
  induction idxs as [|i rest IH]; intros fcoords w.
  - cbn. by rewrite app_nil_r.
  - cbn [generate]. unfold bind. rewrite !attempt_eq. cbn [app].
    rewrite (IH (fcoords ++ _)), (IH (new_coords current _)).
    cbn [fst snd].
    destruct (generate env current rest [] _) as [[added|e] w']; cbn [fst snd];
      [by rewrite app_assoc | reflexivity].
Qed.

(** The part of [distribution_density] after the loop, lines 77-98. *)
Lemma after_the_loop (template : Structure) (current : option Structure)
    (N : Z) (interval : Q) (filepath : option string) (profile : bool)
    (w w1 : world env) (v : vec3) (fcoords : list vec3) :
  generate env current (range N) [] w = (Ok (v :: fcoords), w1) ->
  let tmp_s := {| lattice := lattice template; species := ["C"];
                  frac_coords := [v]; properties := ∅ |} in
  let info := if profile then [Log INFO (print_stats env) []] else [] in
  distribution_density env template current N interval filepath profile w
  = match probability_density env tmp_s (map (fun x => [x]) (v :: fcoords))
            ["C"] interval with
    | Raise e =>
        (Raise e,
         {| evolver_state := evolver_state w1; files := files w1;
            events := events w1 ++ info |})
    | Ok Pr =>
        let chgcar :=
          {| poscar := match current with Some c => c | None => template end;
             data := [("total", Pr)] |} in
        (match (write_file env chgcar filepath (files w1)).1 with
         | Ok _ => Ok chgcar
         | Raise e => Raise e
         end,
         {| evolver_state := evolver_state w1;
            files := (write_file env chgcar filepath (files w1)).2;
            events := (events w1 ++ info) ++ [WriteFile chgcar filepath] |})
    end.
Proof.
  intros Hgen tmp_s info. subst tmp_s info. cbn [map].
  unfold distribution_density, bind. rewrite Hgen.
  destruct w1 as [e1 fs1 evs1].
  destruct profile; unfold logger_info, emit, modify, ret, lift_res;
    cbn [map events files evolver_state];
    (destruct (probability_density env _ _ _ interval) as [Pr|e];
     [|by rewrite ?app_nil_r]);
    unfold call_write_file, bind, emit, modify; cbn [events files evolver_state];
    rewrite ?app_nil_r;
    by destruct (write_file env _ filepath fs1) as [[[]|e] fs'].
Qed.

(** X8. When the loop has collected at least one coordinate, the
    estimator returns a grid and the writer accepts the path, the call
    returns the artifact made of [current] (the template when there is
    no [current]) and the grid under the name "total"; the grid is
    estimated on a one-atom structure with the template's lattice and
    the first coordinate collected; the artifact is written once, at the
    given path, as the last thing done. *)
Theorem distribution_density_returns_artifact (template : Structure)
    (current : option Structure) (N : Z) (interval : Q)
    (filepath : option string) (profile : bool) (w w1 : world env)
    (v : vec3) (fcoords : list vec3) (Pr : Grid) (fs' : FS env) :
  generate env current (range N) [] w = (Ok (v :: fcoords), w1) ->
  probability_density env
    {| lattice := lattice template; species := ["C"];
       frac_coords := [v]; properties := ∅ |}
    (map (fun x => [x]) (v :: fcoords)) ["C"] interval = Ok Pr ->
  let chgcar :=
    {| poscar := match current with Some c => c | None => template end;
       data := [("total", Pr)] |} in
  write_file env chgcar filepath (files w1) = (Ok tt, fs') ->
  let out :=
    distribution_density env template current N interval filepath profile w in
  out.1 = Ok chgcar /\
  files out.2 = fs' /\
  evolver_state out.2 = evolver_state w1 /\
  exists before,
    events out.2 = before ++ [WriteFile chgcar filepath] /\
    Forall (fun ev => is_write ev = false)
      (drop (length (events w1)) before).
Proof.
  intros Hgen Hpr chgcar Hwrite out. subst out.
  rewrite (after_the_loop template current N interval filepath profile
             w w1 v fcoords Hgen). cbv zeta.
  rewrite Hpr. fold chgcar. rewrite Hwrite. cbn [fst snd events files evolver_state].
  repeat split. eexists. split; [reflexivity|].
  rewrite drop_app_length. destruct profile; repeat constructor.
Qed.

(** X9. When the estimator raises, its exception leaves the call;
    nothing is written and the writer is not called. *)
Theorem estimator_failure_writes_nothing (template : Structure)
    (current : option Structure) (N : Z) (interval : Q)
    (filepath : option string) (profile : bool) (w w1 : world env)
    (v : vec3) (fcoords : list vec3) (e : exn) :
  generate env current (range N) [] w = (Ok (v :: fcoords), w1) ->
  probability_density env
    {| lattice := lattice template; species := ["C"];
       frac_coords := [v]; properties := ∅ |}
    (map (fun x => [x]) (v :: fcoords)) ["C"] interval = Raise e ->
  let out :=
    distribution_density env template current N interval filepath profile w in
  out.1 = Raise e /\
  files out.2 = files w1 /\
  Forall (fun ev => is_write ev = false)
    (drop (length (events w1)) (events out.2)).
Proof.
  intros Hgen Hpr out. subst out.
  rewrite (after_the_loop template current N interval filepath profile
             w w1 v fcoords Hgen). cbv zeta.
  rewrite Hpr. cbn [fst snd events files]. repeat split.
  rewrite drop_app_length. destruct profile; repeat constructor.
Qed.

(** X10. The [profile] flag changes nothing but the log: result, files
    and evolver state are the same with and without it, and the events
    with it are the events without it plus one INFO record holding the
    profiler report, placed right after the loop. *)
Theorem profile_only_adds_a_log_record (template : Structure)
    (current : option Structure) (N : Z) (interval : Q)
    (filepath : option string) (w : world env) :
  let off :=
    distribution_density env template current N interval filepath false w in
  let on :=
    distribution_density env template current N interval filepath true w in
  on.1 = off.1 /\
  files on.2 = files off.2 /\
  evolver_state on.2 = evolver_state off.2 /\
  exists before rest,
    events off.2 = before ++ rest /\
    events on.2 = before ++ Log INFO (print_stats env) [] :: rest /\
    before = events (generate env current (range N) [] w).2.
Proof.
  intros off on. subst off on.
  destruct (generate_eq env current (range N) [] w) as (logs & Hgen & _).
  cbn [app] in Hgen.
  destruct (flat_map (new_coords current)
              (replay env current (length (range N)) (evolver_state w)))
    as [|v fcoords] eqn:Hfc.
  - unfold distribution_density, bind. rewrite Hgen.
    unfold logger_info, emit, modify, ret, raise.
    cbn [map fst snd events files evolver_state].
    repeat split. exists (events w ++ logs), [].
    by rewrite app_nil_r.
  - rewrite !(after_the_loop template current N interval filepath _
                w _ v fcoords Hgen). cbv zeta. rewrite Hgen.
    cbn [snd events].
    destruct (probability_density env _ _ _ interval) as [Pr|e].
    + cbn [fst snd events files evolver_state]. repeat split.
      eexists (events w ++ logs), [_].
      rewrite app_nil_r. split; [reflexivity|]. split; [|reflexivity].
      by rewrite <- app_assoc.
    + cbn [fst snd events files evolver_state]. repeat split.
      exists (events w ++ logs), [].
      by rewrite !app_nil_r.
Qed.
End GenerationMore.

Section GenerationMoreWitnesses.
Import Generation GenerationTrace GenerationLog.

Lemma attempt_without_new_atoms_is_silent_witness :
  let w := Bench.boot Bench.echo 0%nat [] in
  attempt Bench.echo (Some (Demo.atoms 2 None)) 0 [] w
  = (Ok [], Bench.boot Bench.echo 1%nat []).
Proof.
  intros w.
  apply (attempt_without_new_atoms_is_silent Bench.echo (Demo.atoms 2 None)
           0 [] w [Demo.atoms 2 None] 1%nat).
  - reflexivity.
  - discriminate.
  - intros s Hs. rewrite elem_of_cons, elem_of_nil in Hs.
    destruct Hs as [->|[]]. cbn. lia.
Defined.

Lemma distribution_density_returns_artifact_witness :
  let env := Demo.planned (fun _ => 0%nat) in
  let out :=
    distribution_density env (Demo.atoms 1 None) None 2 (1 # 2)
      (Some "CHGCAR") true (Demo.start _) in
  exists chgcar,
    out.1 = Ok chgcar /\ files out.2 = [("CHGCAR", chgcar)].
Proof.
  intros env out.
  edestruct (distribution_density_returns_artifact env (Demo.atoms 1 None)
               None 2 (1 # 2) (Some "CHGCAR") true
               (Demo.start (fun _ => 0%nat)))
    as (Hres & Hfiles & _).
  - reflexivity.
  - reflexivity.
  - reflexivity.
  - eexists. split; [exact Hres | exact Hfiles].
Defined.

Lemma estimator_failure_writes_nothing_witness :
  let env := Bench.without_estimator (fun _ => 0%nat) in
  let out :=
    distribution_density env (Demo.atoms 1 None) None 2 (1 # 2)
      (Some "CHGCAR") false (Bench.boot env 0%nat []) in
  out.1 = Raise (ValueError "no density") /\ files out.2 = [].
Proof.
  intros env out.
  edestruct (estimator_failure_writes_nothing env (Demo.atoms 1 None)
               None 2 (1 # 2) (Some "CHGCAR") false (Bench.boot env 0%nat []))
    as (Hres & Hfiles & _).
  - reflexivity.
  - reflexivity.
  - split; [exact Hres | exact Hfiles].
Defined.
End GenerationMoreWitnesses.

(** ** The subgroup deriver: the paths through the function *)

Section DeriverMore.
Import Symmetry SymmetryTrace DeriverTrace.
Variable tk : Toolkit.

(** Passes that find no match are skipped, [sub_struct] unchanged. *)
Lemma primitive_scan_skip (eps : Q) (spgn : Z) (s : Structure)
    (pre rest : list Z) :
  forall w : world tk,
  (forall i, i ∈ pre -> no_match tk s (symprec_of eps i) spgn) ->
  primitive_scan tk eps spgn (pre ++ rest) s w
  = primitive_scan tk eps spgn rest s
      {| rng := rng w;
         trace := trace w
                  ++ flat_map (fun i => pass_events tk s (symprec_of eps i)) pre |}.
Proof.
  induction pre as [|i pre IH]; intros w Hall.
  - cbn. rewrite app_nil_r. by destruct w.
  - cbn [app primitive_scan]. unfold bind at 1.
    rewrite primitive_pass_no_match by (apply Hall, elem_of_cons; by left).
    rewrite IH by (intros j Hj; apply Hall, elem_of_cons; by right).
    cbn [rng trace flat_map]. by rewrite <- app_assoc.
Qed.

(** The pass in which the analyzer reports [spgn] and the primitive
    structure is obtained: what the second detection decides. *)
Lemma primitive_pass_match (eps : Q) (spgn i : Z) (s prim : Structure)
    (spga : Spga tk) (w : world tk) :
  SpacegroupAnalyzer tk s (symprec_of eps i) = Ok spga ->
  get_space_group_number tk spga = Ok (Some spgn) ->
  get_primitive_standard_structure tk spga = Ok prim ->
  primitive_pass tk eps spgn i s w
  = except_ValueError tk
      (bind (analyzer tk prim (symprec_of eps i)) (fun spga' =>
       bind (space_group_number tk spga') (fun n =>
       if eq_spgn n spgn then ret (Break prim spga')
       else raise AssertionError)))
      (ret (Continue prim))
      {| rng := rng w;
         trace := trace w ++ [CallAnalyzer s (symprec_of eps i);
                              CallSpaceGroupNumber (Ok (Some spgn));
                              CallPrimitive] |}.
Proof.
  intros Ha Hn Hp.
  unfold primitive_pass. unfold bind at 1.
  unfold analyzer at 1. rewrite call_eq, Ha.
  unfold except_ValueError at 1. unfold try_except at 1.
  unfold bind at 1. unfold space_group_number at 1. rewrite call_eq, Hn.
  assert (eq_spgn (Some spgn) spgn = true) as -> by by apply eq_spgn_true.
  unfold bind at 1. rewrite call_eq, Hp. cbn [rng trace].
  rewrite <- !app_assoc. cbn [app].
  match goal with |- context [except_ValueError tk ?m ?h ?w1] =>
    destruct (except_ValueError tk m h w1) as [[f|e] w2] eqn:Hin end;
    [reflexivity|].
  (* an exception that left the inner handler is not a ValueError *)
  unfold except_ValueError, try_except in Hin.
  match type of Hin with (let (_, _) := ?m ?w1 in _) = _ =>
    destruct (m w1) as [[f'|e'] w3] end; [discriminate|].
  destruct (is_ValueError e') eqn:He'; [discriminate|].
  unfold raise in Hin. injection Hin as <- <-. by rewrite He'.
Qed.

(** The second detection, on the primitive structure (lines 76-78 inside
    the [try]). *)
Lemma recheck_eq (spgn : Z) (prim : Structure) (symprec : Q) (w : world tk) :
  except_ValueError tk
    (bind (analyzer tk prim symprec) (fun spga' =>
     bind (space_group_number tk spga') (fun n =>
     if eq_spgn n spgn then ret (Break prim spga')
     else raise AssertionError)))
    (ret (Continue prim)) w
  = match SpacegroupAnalyzer tk prim symprec with
    | Raise e =>
        (if is_ValueError e then Ok (Continue prim) else Raise e,
         {| rng := rng w; trace := trace w ++ [CallAnalyzer prim symprec] |})
    | Ok spga' =>
        (match get_space_group_number tk spga' with
         | Raise e => if is_ValueError e then Ok (Continue prim) else Raise e
         | Ok n => if eq_spgn n spgn then Ok (Break prim spga')
                   else Raise AssertionError
         end,
         {| rng := rng w;
            trace := trace w
              ++ [CallAnalyzer prim symprec;
                  CallSpaceGroupNumber (get_space_group_number tk spga')] |})
    end.
Proof.
  unfold except_ValueError, try_except, bind, analyzer, space_group_number.
  rewrite call_eq.
  destruct (SpacegroupAnalyzer tk prim symprec) as [spga'|e].
  - rewrite call_eq. cbn [rng trace]. rewrite <- app_assoc. cbn [app].
    destruct (get_space_group_number tk spga') as [n|e].
    + by destruct (eq_spgn n spgn).
    + by destruct (is_ValueError e).
  - by destruct (is_ValueError e).
Qed.

(** The function once the first steps have gone through. *)
Lemma deriver_eq (structure : Structure) (spgn idx : option Z) (eps : Q)
    (group_type : string) (primitive : bool) (symprec angle_tolerance : Q)
    (expected_initial_spgn : option Z) (w : world tk)
    (c_sub : Pyxtal tk) (g' : R tk) :
  primitive && Qis_zero eps = false ->
  derived tk structure spgn idx eps group_type symprec angle_tolerance
    expected_initial_spgn w c_sub g' ->
  get_subgroup_structure tk structure spgn idx eps group_type primitive
    symprec angle_tolerance expected_initial_spgn w
  = bind
      (if primitive
       then primitive_scan tk eps (target_of tk spgn c_sub) range_1_9
              (to_pymatgen tk c_sub)
       else bind (analyzer tk (to_pymatgen tk c_sub) symprec)
              (fun spga => ret (to_pymatgen tk c_sub, spga)))
      (fun r =>
         let '(sub_struct, spga) := r in
         bind (call tk CallSymmetryOperations (get_symmetry_operations tk spga))
           (fun sym_ops => ret (sub_struct, sym_ops)))
      {| rng := g';
         trace := trace w
                  ++ first_steps structure spgn idx eps group_type
                       symprec angle_tolerance |}.
Proof.
  intros Hguard (c & others & Hseed & Hexp & Hsub).
  unfold get_subgroup_structure. rewrite Hguard.
  erewrite bind_Ok by (rewrite call_eq, Hseed; reflexivity).
  assert (match expected_initial_spgn with
          | Some n => negb (group_number tk c =? n)%Z
          | None => false
          end = false) as ->.
  { destruct expected_initial_spgn as [n|]; [|reflexivity].
    rewrite Hexp, Z.eqb_refl. reflexivity. }
  erewrite bind_Ok
    by (rewrite call_random_eq; cbn [rng trace]; rewrite Hsub; reflexivity).
  cbv beta iota. cbn [fst snd]. unfold first_steps, target_of.
  by rewrite <- app_assoc.
Qed.

(** X15. When an expected space-group number is given and the seed is
    detected as another group, the call raises the [RuntimeError] that
    names the detected group; nothing but the seed has been analysed: no
    subgroup is derived and no random number drawn. *)
Theorem detection_mismatch_raises_before_derivation (structure : Structure)
    (spgn idx : option Z) (eps : Q) (group_type : string) (primitive : bool)
    (symprec angle_tolerance : Q) (expected : Z) (w : world tk)
    (c : Pyxtal tk) :
  primitive && Qis_zero eps = false ->
  from_seed tk structure symprec angle_tolerance = Ok c ->
  group_number tk c <> expected ->
  get_subgroup_structure tk structure spgn idx eps group_type primitive
    symprec angle_tolerance (Some expected) w
  = (Raise (RuntimeError
       ("pyxtal identified the space group " +:+ str_int (group_number tk c)
        +:+ ". Try to tune the value of symprec.")),
     {| rng := rng w;
        trace := trace w ++ [CallFromSeed structure symprec angle_tolerance] |}).
Proof.
  intros Hguard Hseed Hne.
  unfold get_subgroup_structure. rewrite Hguard.
  erewrite bind_Ok by (rewrite call_eq, Hseed; reflexivity).
  apply Z.eqb_neq in Hne. by rewrite Hne.
Qed.

(** X16. Without [primitive], once the first steps have gone through,
    the derived structure is returned as it is, with the operations the
    analyzer finds at the caller's [symprec]; [eps] may be zero; the
    space-group number of the derived structure is not asked for and no
    primitive reduction is made. *)
Theorem conventional_result (structure : Structure) (spgn idx : option Z)
    (eps : Q) (group_type : string) (symprec angle_tolerance : Q)
    (expected_initial_spgn : option Z) (w : world tk)
    (c_sub : Pyxtal tk) (g' : R tk) (spga : Spga tk) (sym_ops : list SymmOp) :
  derived tk structure spgn idx eps group_type symprec angle_tolerance
    expected_initial_spgn w c_sub g' ->
  SpacegroupAnalyzer tk (to_pymatgen tk c_sub) symprec = Ok spga ->
  get_symmetry_operations tk spga = Ok sym_ops ->
  get_subgroup_structure tk structure spgn idx eps group_type false
    symprec angle_tolerance expected_initial_spgn w
  = (Ok (to_pymatgen tk c_sub, sym_ops),
     {| rng := g';
        trace := trace w
          ++ first_steps structure spgn idx eps group_type
               symprec angle_tolerance
          ++ [CallAnalyzer (to_pymatgen tk c_sub) symprec;
              CallSymmetryOperations] |}).
Proof.
  intros Hder Ha Hops.
  rewrite (deriver_eq structure spgn idx eps group_type false symprec
             angle_tolerance expected_initial_spgn w c_sub g' eq_refl Hder).
  unfold bind, analyzer, ret. rewrite !call_eq, Ha. cbn [rng trace].
  rewrite Hops, call_eq. cbn [rng trace]. by rewrite <- !app_assoc.
Qed.

(** X17. When the derivation returns no candidate, taking the first one
    raises [IndexError]; no analyzer has been built. *)
Theorem no_candidate_raises (structure : Structure) (spgn idx : option Z)
    (eps : Q) (group_type : string) (primitive : bool)
    (symprec angle_tolerance : Q) (expected_initial_spgn : option Z)
    (w : world tk) (c : Pyxtal tk) (g' : R tk) :
  primitive && Qis_zero eps = false ->
  from_seed tk structure symprec angle_tolerance = Ok c ->
  match expected_initial_spgn with
  | Some n => group_number tk c = n
  | None => True
  end ->
  subgroup tk c spgn (option_map (fun i => [i]) idx) eps group_type (rng w)
  = (Ok [], g') ->
  get_subgroup_structure tk structure spgn idx eps group_type primitive
    symprec angle_tolerance expected_initial_spgn w
  = (Raise (IndexError "list index out of range"),
     {| rng := g';
        trace := trace w
          ++ first_steps structure spgn idx eps group_type
               symprec angle_tolerance |}).
Proof.
  intros Hguard Hseed Hexp Hsub.
  unfold get_subgroup_structure. rewrite Hguard.
  erewrite bind_Ok by (rewrite call_eq, Hseed; reflexivity).
  assert (match expected_initial_spgn with
          | Some n => negb (group_number tk c =? n)%Z
          | None => false
          end = false) as ->.
  { destruct expected_initial_spgn as [n|]; [|reflexivity].
    rewrite Hexp, Z.eqb_refl. reflexivity. }
  erewrite bind_Ok
    by (rewrite call_random_eq; cbn [rng trace]; rewrite Hsub; reflexivity).
  cbv beta iota. unfold raise, first_steps. cbn [fst snd].
  by rewrite <- app_assoc.
Qed.

(** X18. With [primitive], the search stops at the first tolerance at
    which the analyzer reports the target number: the primitive standard
    structure obtained there is analysed again at the same tolerance
    and, when it has the target number too, it is returned with the
    operations of that second analysis; the tolerances after it are not
    tried. *)
Theorem primitive_stops_at_first_match (structure : Structure)
    (spgn idx : option Z) (eps : Q) (group_type : string)
    (symprec angle_tolerance : Q) (expected_initial_spgn : option Z)
    (w : world tk) (c_sub : Pyxtal tk) (g' : R tk)
    (pre post : list Z) (k : Z) (prim : Structure) (spga spga' : Spga tk)
    (sym_ops : list SymmOp) :
  ~ (eps == 0)%Q ->
  derived tk structure spgn idx eps group_type symprec angle_tolerance
    expected_initial_spgn w c_sub g' ->
  let sub_struct := to_pymatgen tk c_sub in
  let target := target_of tk spgn c_sub in
  range_1_9 = pre ++ k :: post ->
  (forall i, i ∈ pre -> no_match tk sub_struct (symprec_of eps i) target) ->
  SpacegroupAnalyzer tk sub_struct (symprec_of eps k) = Ok spga ->
  get_space_group_number tk spga = Ok (Some target) ->
  get_primitive_standard_structure tk spga = Ok prim ->
  SpacegroupAnalyzer tk prim (symprec_of eps k) = Ok spga' ->
  get_space_group_number tk spga' = Ok (Some target) ->
  get_symmetry_operations tk spga' = Ok sym_ops ->
  let out := get_subgroup_structure tk structure spgn idx eps group_type true
               symprec angle_tolerance expected_initial_spgn w in
  out.1 = Ok (prim, sym_ops) /\
  rng out.2 = g' /\
  exists new,
    trace out.2 = trace w ++ new /\
    tolerances new
    = map (symprec_of eps) pre ++ [symprec_of eps k; symprec_of eps k].
Proof.
  intros Heps Hder sub_struct target Hsplit Hpre Ha Hn Hp Ha' Hn' Hops out.
  assert (Hguard : true && Qis_zero eps = false)
    by by apply Qis_zero_false in Heps.
  assert (Hrun : out
    = (Ok (prim, sym_ops),
       {| rng := g';
          trace := (((trace w
            ++ first_steps structure spgn idx eps group_type
                 symprec angle_tolerance)
            ++ flat_map (fun i => pass_events tk sub_struct (symprec_of eps i)) pre)
            ++ [CallAnalyzer sub_struct (symprec_of eps k);
                CallSpaceGroupNumber (Ok (Some target));
                CallPrimitive;
                CallAnalyzer prim (symprec_of eps k);
                CallSpaceGroupNumber (Ok (Some target))])
            ++ [CallSymmetryOperations] |})).
  { subst out.
    rewrite (deriver_eq structure spgn idx eps group_type true symprec
               angle_tolerance expected_initial_spgn w c_sub g' Hguard Hder).
    fold sub_struct target. rewrite Hsplit.
    erewrite bind_Ok.
    2:{ rewrite (primitive_scan_skip eps target sub_struct pre _ _ Hpre).
        cbn [primitive_scan]. erewrite bind_Ok.
        2:{ rewrite (primitive_pass_match eps target k sub_struct prim spga
                       _ Ha Hn Hp).
            rewrite recheck_eq, Ha', Hn'.
            assert (eq_spgn (Some target) target = true) as ->
              by by apply eq_spgn_true.
            reflexivity. }
        reflexivity. }
    cbv beta iota.
    erewrite bind_Ok by (rewrite call_eq, Hops; reflexivity).
    unfold ret. cbn [rng trace]. rewrite <- ?app_assoc. reflexivity. }
  rewrite Hrun. cbn [fst snd rng trace].
  split; [reflexivity|]. split; [reflexivity|].
  eexists. split; [by rewrite <- !app_assoc|].
  rewrite !tolerances_app, tolerances_passes. reflexivity.
Qed.

(** X19. When the primitive structure obtained at a matching tolerance
    is detected as another group, the assertion of line 77 fails: the
    [AssertionError] leaves the search, and the remaining tolerances are
    not tried. *)
Theorem failed_recheck_aborts (eps : Q) (spgn k : Z) (rest : list Z)
    (s prim : Structure) (spga spga' : Spga tk) (x : option Z) (w : world tk) :
  SpacegroupAnalyzer tk s (symprec_of eps k) = Ok spga ->
  get_space_group_number tk spga = Ok (Some spgn) ->
  get_primitive_standard_structure tk spga = Ok prim ->
  SpacegroupAnalyzer tk prim (symprec_of eps k) = Ok spga' ->
  get_space_group_number tk spga' = Ok x ->
  x <> Some spgn ->
  let out := primitive_scan tk eps spgn (k :: rest) s w in
  out.1 = Raise AssertionError /\
  exists new,
    trace out.2 = trace w ++ new /\
    tolerances new = [symprec_of eps k; symprec_of eps k].
Proof.
  intros Ha Hn Hp Ha' Hn' Hx out. subst out.
  cbn [primitive_scan]. erewrite bind_Raise.
  2:{ rewrite (primitive_pass_match eps spgn k s prim spga _ Ha Hn Hp).
      rewrite recheck_eq, Ha', Hn'.
      apply eq_spgn_false in Hx. rewrite Hx. reflexivity. }
  cbn [fst snd rng trace].
  split; [reflexivity|]. eexists. split; [by rewrite <- app_assoc|].
  reflexivity.
Qed.

(** X20. When the second detection, on the primitive structure, raises
    [ValueError], the exception is swallowed and the search goes on with
    the next tolerance, now on the primitive structure: the replacement
    of [sub_struct] is not undone. *)
Theorem primitive_kept_after_ValueError (eps : Q) (spgn k : Z)
    (rest : list Z) (s prim : Structure) (spga spga' : Spga tk) (e : exn)
    (w : world tk) :
  SpacegroupAnalyzer tk s (symprec_of eps k) = Ok spga ->
  get_space_group_number tk spga = Ok (Some spgn) ->
  get_primitive_standard_structure tk spga = Ok prim ->
  SpacegroupAnalyzer tk prim (symprec_of eps k) = Ok spga' ->
  get_space_group_number tk spga' = Raise e ->
  is_ValueError e = true ->
  primitive_scan tk eps spgn (k :: rest) s w
  = primitive_scan tk eps spgn rest prim
      {| rng := rng w;
         trace := trace w
           ++ [CallAnalyzer s (symprec_of eps k);
               CallSpaceGroupNumber (Ok (Some spgn));
               CallPrimitive;
               CallAnalyzer prim (symprec_of eps k);
               CallSpaceGroupNumber (Raise e)] |}.
Proof.
  intros Ha Hn Hp Ha' Hn' He.
  cbn [primitive_scan]. erewrite bind_Ok.
  2:{ rewrite (primitive_pass_match eps spgn k s prim spga _ Ha Hn Hp).
      rewrite recheck_eq, Ha', Hn', He. reflexivity. }
  cbv beta iota. cbn [rng trace]. by rewrite <- app_assoc.
Qed.

(** X21. Only a [ValueError] raised inside the [try] is swallowed: an
    exception raised while the analyzer is built (line 71, before the
    [try]), of whatever kind, and an exception of the detection that is
    not a [ValueError], leave the search at once. *)
Theorem other_exceptions_leave_the_scan (eps : Q) (spgn k : Z)
    (rest : list Z) (s : Structure) (e : exn) (w : world tk) :
  (SpacegroupAnalyzer tk s (symprec_of eps k) = Raise e \/
   exists spga,
     SpacegroupAnalyzer tk s (symprec_of eps k) = Ok spga /\
     get_space_group_number tk spga = Raise e /\
     is_ValueError e = false) ->
  let out := primitive_scan tk eps spgn (k :: rest) s w in
  out.1 = Raise e /\
  rng out.2 = rng w /\
  exists new,
    trace out.2 = trace w ++ new /\ tolerances new = [symprec_of eps k].
Proof.
  intros Hcase out. subst out.
  cbn [primitive_scan].
  destruct Hcase as [Ha|(spga & Ha & Hn & He)].
  - erewrite bind_Raise.
    2:{ unfold primitive_pass. erewrite bind_Raise; [reflexivity|].
        unfold analyzer. rewrite call_eq, Ha. reflexivity. }
    cbn [fst snd rng trace]. repeat split. eexists. split; reflexivity.
  - erewrite bind_Raise.
    2:{ unfold primitive_pass.
        erewrite bind_Ok
          by (unfold analyzer; rewrite call_eq, Ha; reflexivity).
        unfold except_ValueError, try_except.
        erewrite bind_Raise
          by (unfold space_group_number; rewrite call_eq, Hn; reflexivity).
        rewrite He. reflexivity. }
    cbn [fst snd rng trace]. repeat split.
    eexists. split; [by rewrite <- app_assoc|]. reflexivity.
Qed.
End DeriverMore.

Section DeriverMoreWitnesses.
Import Symmetry SymmetryTrace DeriverTrace.

Lemma detection_mismatch_raises_before_derivation_witness :
  exists msg,
    (get_subgroup_structure Demo.blind (Demo.atoms 2 None) (Some 166%Z) None
       (1 # 100000) "t" false (1 # 1000) 5%Q (Some 225%Z)
       (Demo.seed Demo.blind 3%nat)).1
    = Raise (RuntimeError msg).
Proof.
  eexists.
  rewrite (detection_mismatch_raises_before_derivation Demo.blind
             (Demo.atoms 2 None) (Some 166%Z) None (1 # 100000) "t" false
             (1 # 1000) 5%Q 225%Z (Demo.seed Demo.blind 3%nat)
             (Demo.atoms 2 None, 227%Z)).
  - reflexivity.
  - reflexivity.
  - reflexivity.
  - discriminate.
Defined.

Lemma conventional_result_witness :
  (get_subgroup_structure Demo.blind (Demo.atoms 2 None) (Some 166%Z)
     (Some 0%Z) 0%Q "t" false (1 # 1000) 5%Q None
     (Demo.seed Demo.blind 0%nat)).1
  = Ok (Demo.atoms 2 None, [Demo.identity_op]).
Proof.
  rewrite (conventional_result Demo.blind (Demo.atoms 2 None) (Some 166%Z)
             (Some 0%Z) 0%Q "t" (1 # 1000) 5%Q None
             (Demo.seed Demo.blind 0%nat) (Demo.atoms 2 None, 166%Z) 1%nat
             (Demo.atoms 2 None, 1 # 1000) [Demo.identity_op]).
  - reflexivity.
  - eexists _, _. split; [reflexivity|]. split; [exact I | reflexivity].
  - reflexivity.
  - reflexivity.
Defined.

Lemma no_candidate_raises_witness :
  let tk := Bench.lab Demo.sees_P1 Bench.keep false in
  (get_subgroup_structure tk (Demo.atoms 2 None) None None (1 # 100000) "k"
     true (1 # 1000) 5%Q None (Demo.seed tk 0%nat)).1
  = Raise (IndexError "list index out of range").
Proof.
  intros tk.
  rewrite (no_candidate_raises tk (Demo.atoms 2 None) None None (1 # 100000)
             "k" true (1 # 1000) 5%Q None (Demo.seed tk 0%nat)
             (Demo.atoms 2 None, 227%Z) 1%nat).
  - reflexivity.
  - reflexivity.
  - reflexivity.
  - exact I.
  - reflexivity.
Defined.

Lemma primitive_stops_at_first_match_witness :
  let tk := Bench.lab Bench.sees_from_1 Bench.keep true in
  let out :=
    get_subgroup_structure tk (Demo.atoms 2 None) (Some 166%Z) None 1%Q "t"
      true (1 # 1000) 5%Q None (Demo.seed tk 0%nat) in
  out.1 = Ok (Demo.atoms 2 None, [Demo.identity_op]) /\
  length (tolerances (trace out.2)) = 5%nat.
Proof.
  intros tk out.
  edestruct (primitive_stops_at_first_match tk (Demo.atoms 2 None)
               (Some 166%Z) None 1%Q "t" (1 # 1000) 5%Q None
               (Demo.seed tk 0%nat) (Demo.atoms 2 None, 166%Z) 1%nat
               [1; 2; 3]%Z [5; 6; 7; 8]%Z 4%Z)
    as (Hres & _ & new & Htr & Htol).
  - intros H. discriminate H.
  - eexists _, _. split; [reflexivity|]. split; [exact I | reflexivity].
  - reflexivity.
  - intros i Hi. rewrite !elem_of_cons, elem_of_nil in Hi.
    destruct Hi as [->|[->|[->|[]]]];
      (eexists; split; [reflexivity|]; vm_compute; discriminate).
  - reflexivity.
  - reflexivity.
  - reflexivity.
  - reflexivity.
  - reflexivity.
  - reflexivity.
  - split; [exact Hres|]. fold out in Htr. rewrite Htr.
    cbn [Demo.seed trace app]. rewrite Htol. reflexivity.
Defined.

Lemma failed_recheck_aborts_witness :
  let tk := Bench.lab Bench.sees_pairs Bench.halve true in
  (primitive_scan tk 1%Q 166 [1; 2]%Z (Demo.atoms 2 None)
     (Demo.seed tk 0%nat)).1
  = Raise AssertionError.
Proof.
  intros tk.
  edestruct (failed_recheck_aborts tk 1%Q 166%Z 1%Z [2]%Z (Demo.atoms 2 None)
               (Demo.atoms 1 None)) as [Hres _].
  - reflexivity.
  - reflexivity.
  - reflexivity.
  - reflexivity.
  - reflexivity.
  - discriminate.
  - exact Hres.
Defined.

Lemma primitive_kept_after_ValueError_witness :
  let tk := Bench.lab Bench.sees_pairs_or_fails Bench.halve true in
  exists w',
    primitive_scan tk 1%Q 166 [1; 2]%Z (Demo.atoms 2 None) (Demo.seed tk 0%nat)
    = primitive_scan tk 1%Q 166 [2]%Z (Demo.atoms 1 None) w'.
Proof.
  intros tk. eexists.
  eapply (primitive_kept_after_ValueError tk 1%Q 166%Z 1%Z [2]%Z
            (Demo.atoms 2 None) (Demo.atoms 1 None)).
  - reflexivity.
  - reflexivity.
  - reflexivity.
  - reflexivity.
  - reflexivity.
  - reflexivity.
Defined.

Lemma other_exceptions_leave_the_scan_witness :
  let tk := Bench.lab Bench.crashes Bench.keep true in
  (primitive_scan tk 1%Q 166 [1; 2; 3]%Z (Demo.atoms 2 None)
     (Demo.seed tk 0%nat)).1
  = Raise (Exception_ "TypeError").
Proof.
  intros tk.
  edestruct (other_exceptions_leave_the_scan tk 1%Q 166%Z 1%Z [2; 3]%Z
               (Demo.atoms 2 None) (Exception_ "TypeError")
               (Demo.seed tk 0%nat)) as [Hres _].
  - right. eexists. split; [reflexivity|]. split; reflexivity.
  - exact Hres.
Defined.
End DeriverMoreWitnesses.

(** ** The subgroup validator: what it calls, what it lets through *)

Section ValidatorMore.
Import Symmetry SymmetryTrace ValidatorTrace.
Variable tk : Toolkit.

Lemma sample_loop_calls (structure_orig structure_sub : Structure)
    (symm_ops : list SymmOp) (sub_spgn : Z) (symprec : Q) (idxs : list Z) :
  forall w : world tk,
  exists new,
    trace (sample_loop tk structure_sub symm_ops sub_spgn symprec idxs w).2
    = trace w ++ new /\
    Forall (validation_call structure_orig structure_sub symprec) new.
Proof.
  induction idxs as [|i rest IH]; intros w.
  - exists []. cbn. rewrite app_nil_r. split; [reflexivity|constructor].
  - cbn [sample_loop].
    destruct (add_new_symmetrized_atom tk structure_sub symm_ops (rng w))
      as [[s|e] g'] eqn:Hnew.
    2:{ erewrite bind_Raise
          by (rewrite call_random_eq, Hnew; reflexivity).
        eexists. split; [reflexivity|]. by repeat constructor. }
    erewrite bind_Ok by (rewrite call_random_eq, Hnew; reflexivity).
    cbn [fst snd].
    destruct (SpacegroupAnalyzer tk s symprec) as [spga|e] eqn:Hspga.
    2:{ erewrite bind_Raise
          by (unfold analyzer; rewrite call_eq, Hspga; reflexivity).
        cbn [fst snd rng trace]. eexists.
        split; [by rewrite <- app_assoc|]. by repeat constructor. }
    erewrite bind_Ok
      by (unfold analyzer; rewrite call_eq, Hspga; reflexivity).
    cbn [rng trace].
    destruct (get_space_group_number tk spga) as [x|e] eqn:Hx.
    2:{ erewrite bind_Raise
          by (unfold space_group_number; rewrite call_eq, Hx; reflexivity).
        cbn [fst snd rng trace]. eexists.
        split; [by rewrite <- !app_assoc|]. by repeat constructor. }
    erewrite bind_Ok
      by (unfold space_group_number; rewrite call_eq, Hx; reflexivity).
    cbn [rng trace].
    destruct (eq_spgn x sub_spgn).
    + unfold ret. cbn [fst snd trace]. eexists.
      split; [by rewrite <- !app_assoc|]. by repeat constructor.
    + match goal with |- context [sample_loop tk _ _ _ _ rest ?w1] =>
        destruct (IH w1) as (new & -> & Hnew') end.
      cbn [trace].
      exists ([CallNewAtom structure_sub; CallAnalyzer s symprec;
               CallSpaceGroupNumber (Ok x)] ++ new).
      split; [by rewrite <- !app_assoc|].
      apply Forall_app. split; [by repeat constructor | exact Hnew'].
Qed.

(** X22. Whatever the outcome, [validate_subgroup] calls the toolkit
    only to fit the two structures, to add an atom to the derived
    structure (each sample starts from [structure_sub] itself, not from
    an earlier sample), to build analyzers at the caller's [symprec] and
    to ask their space-group number. *)
Theorem validator_calls (structure_orig structure_sub : Structure)
    (symm_ops : list SymmOp) (sub_spgn : Z) (ltol stol angle_tol symprec : Q)
    (w : world tk) :
  exists new,
    trace (validate_subgroup tk structure_orig structure_sub symm_ops
             sub_spgn ltol stol angle_tol symprec w).2
    = trace w ++ new /\
    Forall (validation_call structure_orig structure_sub symprec) new.
Proof.
  unfold validate_subgroup.
  destruct (fit tk ltol angle_tol stol structure_orig structure_sub)
    as [[|]|e] eqn:Hfit.
  - erewrite bind_Ok by apply call_eq.
    cbn [negb]. cbv beta iota. unfold bind.
    match goal with |- context [sample_loop tk _ _ _ _ _ ?w1] =>
      destruct (sample_loop_calls structure_orig structure_sub symm_ops
                  sub_spgn symprec (range 10) w1) as (new & Htr & Hnew);
      destruct (sample_loop tk structure_sub symm_ops sub_spgn symprec
                  (range 10) w1) as [r w2] end.
    cbn [fst snd trace] in *.
    exists (CallFit structure_orig structure_sub :: new).
    split.
    + destruct r as [[|]|e]; unfold ret; cbn [fst snd]; rewrite Htr;
        by rewrite <- app_assoc.
    + constructor; [by split | exact Hnew].
  - erewrite bind_Ok by apply call_eq.
    cbn [negb]. cbv beta iota. unfold ret. cbn [fst snd rng trace].
    eexists. split; [reflexivity|]. by repeat constructor.
  - erewrite bind_Raise by apply call_eq.
    cbn [fst snd rng trace].
    eexists. split; [reflexivity|]. by repeat constructor.
Qed.

(** X23. Unlike the tolerance search of the deriver, the validator
    swallows nothing: when the detection on a sample raises, be it a
    [ValueError], the exception leaves [validate_subgroup] and no further
    sample is drawn. *)
Theorem validator_lets_exceptions_through (structure_orig structure_sub : Structure)
    (symm_ops : list SymmOp) (sub_spgn : Z) (ltol stol angle_tol symprec : Q)
    (w : world tk) (s : Structure) (g' : R tk) (spga : Spga tk) (e : exn) :
  fit tk ltol angle_tol stol structure_orig structure_sub = Ok true ->
  add_new_symmetrized_atom tk structure_sub symm_ops (rng w) = (Ok s, g') ->
  SpacegroupAnalyzer tk s symprec = Ok spga ->
  get_space_group_number tk spga = Raise e ->
  validate_subgroup tk structure_orig structure_sub symm_ops sub_spgn
    ltol stol angle_tol symprec w
  = (Raise e,
     {| rng := g';
        trace := trace w
          ++ [CallFit structure_orig structure_sub;
              CallNewAtom structure_sub;
              CallAnalyzer s symprec;
              CallSpaceGroupNumber (Raise e)] |}).
Proof.
  intros Hfit Hnew Hspga Hx.
  unfold validate_subgroup.
  erewrite bind_Ok by (rewrite call_eq, Hfit; reflexivity).
  cbn [negb]. cbv beta iota.
  erewrite bind_Raise; [reflexivity|].
  change (range 10) with (0%Z :: map Z.of_nat (seq 1 9)).
  cbn [sample_loop].
  erewrite bind_Ok
    by (rewrite call_random_eq; cbn [rng trace]; rewrite Hnew; reflexivity).
  erewrite bind_Ok
    by (unfold analyzer; rewrite call_eq, Hspga; reflexivity).
  erewrite bind_Raise
    by (unfold space_group_number; rewrite call_eq, Hx; reflexivity).
  cbn [rng trace fst snd]. by rewrite <- !app_assoc.
Qed.
End ValidatorMore.

Section ValidatorMoreWitnesses.
Import Symmetry SymmetryTrace ValidatorTrace.

Lemma validator_lets_exceptions_through_witness :
  let tk := Bench.lab Bench.sees_pairs_or_fails Bench.keep true in
  (validate_subgroup tk (Demo.atoms 2 None) (Demo.atoms 2 None)
     [Demo.identity_op] 166 (1 # 1000) (1 # 1000) 1%Q (1 # 1000)
     (Demo.seed tk 0%nat)).1
  = Raise (ValueError "spglib failed").
Proof.
  intros tk.
  erewrite (validator_lets_exceptions_through tk (Demo.atoms 2 None)
              (Demo.atoms 2 None) [Demo.identity_op] 166 (1 # 1000) (1 # 1000)
              1%Q (1 # 1000) (Demo.seed tk 0%nat)
              (Demo.one_more (Some (Demo.atoms 2 None)) 0) 1%nat
              (Demo.one_more (Some (Demo.atoms 2 None)) 0, 1 # 1000)
              (ValueError "spglib failed")).
  - reflexivity.
  - reflexivity.
  - reflexivity.
  - reflexivity.
  - reflexivity.
Defined.
End ValidatorMoreWitnesses.

(** ** The subgroup enumerator: depth, errors, order *)

Section EnumeratorMore.
Import Symmetry SymmetryTrace.
Variable tk : Toolkit.

Lemma fold_add_subgroup_Raise (rec : Z -> res pyval) (subgroups : list Z)
    (e : exn) :
  fold_left (add_subgroup rec) subgroups (Raise e) = Raise e.
Proof. induction subgroups as [|sg rest IH]; [reflexivity | exact IH]. Qed.

(** A recursive call that returns more often lets the loop return the
    same dictionary. *)
Lemma fold_add_subgroup_mono (rec1 rec2 : Z -> res pyval) :
  (forall sg v, rec1 sg = Ok v -> rec2 sg = Ok v) ->
  forall (subgroups : list Z) (acc : res (gmap Z pyval)) (d : gmap Z pyval),
  fold_left (add_subgroup rec1) subgroups acc = Ok d ->
  fold_left (add_subgroup rec2) subgroups acc = Ok d.
Proof.
  intros Hrec. induction subgroups as [|sg rest IH]; intros acc d Hfold;
    [exact Hfold|].
  destruct acc as [d0|e]; [|by rewrite fold_add_subgroup_Raise in Hfold].
  cbn [fold_left] in *.
  unfold add_subgroup at 2 in Hfold. unfold add_subgroup at 2.
  destruct (d0 !! sg) as [v0|]; [by apply IH|].
  destruct (rec1 sg) as [v|e] eqn:Hv.
  - rewrite (Hrec sg v Hv). by apply IH.
  - by rewrite fold_add_subgroup_Raise in Hfold.
Qed.

(** X24. A value returned at some call depth is returned at every
    greater depth: once the recursion limit is enough, the result does
    not depend on it. *)
Theorem get_subgroups_depth_irrelevant (group_type : string) (fuel : nat) :
  forall (fuel' : nat) (spgn : Z) (recursive : bool) (v : pyval),
  (fuel <= fuel')%nat ->
  get_subgroups tk fuel spgn recursive group_type = Ok v ->
  get_subgroups tk fuel' spgn recursive group_type = Ok v.
Proof.
  induction fuel as [|fuel IH]; intros fuel' spgn recursive v Hle Hrun;
    [discriminate|].
  destruct fuel' as [|fuel']; [lia|].
  cbn [get_subgroups] in *.
  destruct (symmetry_Group tk spgn) as [group|e]; [|discriminate].
  destruct (subgroups_of tk group group_type) as [subgroups|e]; [|discriminate].
  destruct recursive; [|exact Hrun].
  destruct (fold_left
              (add_subgroup (fun sg => get_subgroups tk fuel sg true group_type))
              subgroups (Ok ∅)) as [d|e] eqn:Hfold; [|discriminate].
  rewrite (fold_add_subgroup_mono
             (fun sg => get_subgroups tk fuel sg true group_type)
             (fun sg => get_subgroups tk fuel' sg true group_type)
             (fun sg v' Hv' => IH fuel' sg true v' ltac:(lia) Hv')
             subgroups (Ok ∅) d Hfold).
  exact Hrun.
Qed.

(** X25. An error anywhere below aborts the whole enumeration: when the
    subgroups listed before [sg] expand and the expansion of [sg] raises
    (its number is unknown to the table, say), the call raises the same
    exception and returns no partial dictionary. *)
Theorem failing_subgroup_aborts (group_type : string) (fuel : nat) (spgn : Z)
    (group : Group tk) (before after : list Z) (sg : Z) (e : exn) :
  symmetry_Group tk spgn = Ok group ->
  subgroups_of tk group group_type = Ok (before ++ sg :: after) ->
  (forall x, x ∈ before ->
     exists v, get_subgroups tk fuel x true group_type = Ok v) ->
  sg ∉ before ->
  get_subgroups tk fuel sg true group_type = Raise e ->
  get_subgroups tk (S fuel) spgn true group_type = Raise e.
Proof.
  intros Hg Hs Hbefore Hnew Hsg.
  cbn [get_subgroups]. rewrite Hg, Hs, fold_left_app.
  destruct (fold_add_subgroup
              (fun x => get_subgroups tk fuel x true group_type)
              before ∅ Hbefore) as (d & -> & Hdom & _).
  cbn [fold_left]. unfold add_subgroup at 2.
  assert (d !! sg = None) as ->.
  { apply eq_None_not_Some. rewrite Hdom, lookup_empty.
    intros [?|[? ?]]; [done|discriminate]. }
  rewrite Hsg. by rewrite fold_add_subgroup_Raise.
Qed.



End EnumeratorMore.

Section EnumeratorMoreWitnesses.
Import Symmetry SymmetryTrace.

Lemma get_subgroups_depth_irrelevant_witness :
  get_subgroups Demo.blind 1000 3 true "t"
  = get_subgroups Demo.blind 4 3 true "t".
Proof.
  destruct (get_subgroups Demo.blind 4 3 true "t") as [v|e] eqn:Hrun.
  - apply (get_subgroups_depth_irrelevant Demo.blind "t" 4 1000 3%Z true v);
      [lia | exact Hrun].
  - vm_compute in Hrun. discriminate Hrun.
Defined.

Lemma failing_subgroup_aborts_witness :
  get_subgroups Bench.broken 3 3 true "t"
  = Raise (ValueError "unknown space group").
Proof.
  apply (failing_subgroup_aborts Bench.broken "t" 2 3%Z 3%Z [2]%Z [1]%Z 0%Z).
  - reflexivity.
  - reflexivity.
  - intros x Hx. rewrite elem_of_cons, elem_of_nil in Hx.
    destruct Hx as [->|[]].
    destruct (get_subgroups Bench.broken 2 2 true "t") as [v|e] eqn:Hrun;
      [eauto|]. vm_compute in Hrun. discriminate Hrun.
  - intros Hin. rewrite elem_of_cons, elem_of_nil in Hin.
    destruct Hin as [Hin|[]]. discriminate Hin.
  - reflexivity.
Defined.

End EnumeratorMoreWitnesses.
